(** * Type annotations, signature extraction and the randomized safety check

    A shallow embedding of the code cells of
    [advantages-of-type-annotations.ipynb]: the two [signature] extractors
    (one reading the parsed source of a function, one reading its
    [__annotations__] mapping), the checker [safe], and the example
    functions [double], [triple] and [floor].

    Python values are a small universe (integers, booleans, binary64
    floats, [None] and the built-in type objects); exceptions are values of
    an error monad; the [random] module is an oracle of raw draws consumed
    one per library call. *)

From Stdlib Require Import ZArith NArith List String Bool Lia.
From Stdlib Require Import SpecFloat.
Import ListNotations.
Local Open Scope string_scope.
Local Open Scope list_scope.
Local Open Scope Z_scope.

(** ** Python objects *)

(** The built-in type objects that the notebook mentions. *)
Inductive pytype : Type :=
  | TObject | TType | TInt | TBool | TFloat | TStr | TNoneType.

(** binary64, as Python's [float]. *)
Definition prec : Z := 53.
Definition emax : Z := 1024.

Inductive pyval : Type :=
  | VInt (z : Z)
  | VBool (b : bool)
  | VFloat (x : spec_float)
  | VNone
  | VType (t : pytype).

Definition pytype_eqb (a b : pytype) : bool :=
  match a, b with
  | TObject, TObject | TType, TType | TInt, TInt | TBool, TBool
  | TFloat, TFloat | TStr, TStr | TNoneType, TNoneType => true
  | _, _ => false
  end.

(** [type(v)] *)
Definition type_of (v : pyval) : pytype :=
  match v with
  | VInt _ => TInt
  | VBool _ => TBool
  | VFloat _ => TFloat
  | VNone => TNoneType
  | VType _ => TType
  end.

(** [issubclass(a, b)] on the built-in types: every type derives from
    [object], and [bool] derives from [int]. *)
Definition issubclass (a b : pytype) : bool :=
  match b with
  | TObject => true
  | TInt => match a with TInt | TBool => true | _ => false end
  | _ => pytype_eqb a b
  end.

(** [v is int], [v is float]: identity with a built-in type object. *)
Definition is_type (v : pyval) (t : pytype) : bool :=
  match v with
  | VType t' => pytype_eqb t' t
  | _ => false
  end.

(** ** Exceptions and the error monad *)

Inductive exc_kind : Type :=
  | TypeError | ValueError | OverflowError | IndexError | KeyError
  | AttributeError | NameError | UnboundLocalError | AssertionError
  | ZeroDivisionError | OSError | KeyboardInterrupt | SystemExit.

Record exn : Type := mkExn { exc_type : exc_kind; exc_msg : string }.

Inductive outcome (A : Type) : Type :=
  | Return (a : A)
  | Raise (e : exn).
Arguments Return {A} a.
Arguments Raise {A} e.

Definition bind {A B} (c : outcome A) (k : A -> outcome B) : outcome B :=
  match c with
  | Return a => k a
  | Raise e => Raise e
  end.

Notation "x <- c ;; k" := (bind c (fun x => k))
  (at level 61, c at next level, right associativity).

Definition raise {A} (k : exc_kind) (msg : string) : outcome A :=
  Raise (mkExn k msg).

(** ** Numbers *)

(** [float(z)] for an integer [z]: correctly rounded, [OverflowError] when
    the integer is beyond the binary64 range. *)
Definition float_of_Z (z : Z) : outcome spec_float :=
  match binary_normalize prec emax z 0 false with
  | S754_infinity _ => raise OverflowError "int too large to convert to float"
  | x => Return x
  end.

(** [int(x)] for a float [x]: truncation towards zero. *)
Definition int_of_float (x : spec_float) : outcome Z :=
  match x with
  | S754_zero _ => Return 0
  | S754_finite s m e =>
      let a := match e with
               | Zneg p => Z.shiftr (Zpos m) (Zpos p)
               | _ => Z.shiftl (Zpos m) e
               end in
      Return (if s then - a else a)
  | S754_infinity _ =>
      raise OverflowError "cannot convert float infinity to integer"
  | S754_nan => raise ValueError "cannot convert float NaN to integer"
  end.

(** The numeric operands of the arithmetic operators. *)
Inductive number : Type :=
  | NInt (z : Z)
  | NFloat (x : spec_float).

Definition as_number (v : pyval) : option number :=
  match v with
  | VInt z => Some (NInt z)
  | VBool b => Some (NInt (if b then 1 else 0))
  | VFloat x => Some (NFloat x)
  | _ => None
  end.

(** [a + b] *)
Definition py_add (a b : pyval) : outcome pyval :=
  match as_number a, as_number b with
  | Some (NInt x), Some (NInt y) => Return (VInt (x + y))
  | Some (NFloat x), Some (NFloat y) => Return (VFloat (SFadd prec emax x y))
  | Some (NInt x), Some (NFloat y) =>
      x' <- float_of_Z x ;; Return (VFloat (SFadd prec emax x' y))
  | Some (NFloat x), Some (NInt y) =>
      y' <- float_of_Z y ;; Return (VFloat (SFadd prec emax x y'))
  | _, _ => raise TypeError "unsupported operand type(s) for +"
  end.

(** [a - b] *)
Definition py_sub (a b : pyval) : outcome pyval :=
  match as_number a, as_number b with
  | Some (NInt x), Some (NInt y) => Return (VInt (x - y))
  | Some (NFloat x), Some (NFloat y) => Return (VFloat (SFsub prec emax x y))
  | Some (NInt x), Some (NFloat y) =>
      x' <- float_of_Z x ;; Return (VFloat (SFsub prec emax x' y))
  | Some (NFloat x), Some (NInt y) =>
      y' <- float_of_Z y ;; Return (VFloat (SFsub prec emax x y'))
  | _, _ => raise TypeError "unsupported operand type(s) for -"
  end.

(** [a * b] *)
Definition py_mul (a b : pyval) : outcome pyval :=
  match as_number a, as_number b with
  | Some (NInt x), Some (NInt y) => Return (VInt (x * y))
  | Some (NFloat x), Some (NFloat y) => Return (VFloat (SFmul prec emax x y))
  | Some (NInt x), Some (NFloat y) =>
      x' <- float_of_Z x ;; Return (VFloat (SFmul prec emax x' y))
  | Some (NFloat x), Some (NInt y) =>
      y' <- float_of_Z y ;; Return (VFloat (SFmul prec emax x y'))
  | _, _ => raise TypeError "unsupported operand type(s) for *"
  end.

(** Exact comparison of a float with an integer, as CPython does it (no
    conversion of the integer): [None] when the float is a NaN. *)
Definition compare_float_Z (x : spec_float) (z : Z) : option comparison :=
  match x with
  | S754_nan => None
  | S754_infinity s => Some (if s then Lt else Gt)
  | S754_zero _ => Some (0 ?= z)
  | S754_finite s m e =>
      let a := if s then Zneg m else Zpos m in
      Some match e with
           | Zneg p => a ?= Z.shiftl z (Zpos p)
           | _ => Z.shiftl a e ?= z
           end
  end.

Definition compare_number (a b : number) : option comparison :=
  match a, b with
  | NInt x, NInt y => Some (x ?= y)
  | NFloat x, NFloat y => SFcompare x y
  | NFloat x, NInt y => compare_float_Z x y
  | NInt x, NFloat y => option_map CompOpp (compare_float_Z y x)
  end.

(** [a > b] *)
Definition py_gt (a b : pyval) : outcome pyval :=
  match as_number a, as_number b with
  | Some x, Some y =>
      Return (VBool match compare_number x y with
                    | Some Gt => true
                    | _ => false
                    end)
  | _, _ => raise TypeError "'>' not supported between instances"
  end.

(** [a <= b] *)
Definition py_le (a b : pyval) : outcome pyval :=
  match as_number a, as_number b with
  | Some x, Some y =>
      Return (VBool match compare_number x y with
                    | Some (Lt | Eq) => true
                    | _ => false
                    end)
  | _, _ => raise TypeError "'<=' not supported between instances"
  end.

(** Truth value of an object, as tested by [if] and [assert]. *)
Definition truthy (v : pyval) : bool :=
  match v with
  | VInt z => negb (z =? 0)
  | VBool b => b
  | VFloat (S754_zero _) => false
  | VFloat _ => true
  | VNone => false
  | VType _ => true
  end.

(** [int(v)] *)
Definition py_int (v : pyval) : outcome pyval :=
  match v with
  | VInt z => Return (VInt z)
  | VBool b => Return (VInt (if b then 1 else 0))
  | VFloat x => z <- int_of_float x ;; Return (VInt z)
  | _ => raise TypeError "int() argument must be a string or a number"
  end.

(** [isinstance(v, t)]: the second argument must be a type. *)
Definition isinstance (v t : pyval) : outcome bool :=
  match t with
  | VType t' => Return (issubclass (type_of v) t')
  | _ => raise TypeError "isinstance() arg 2 must be a type or tuple of types"
  end.

(** ** Dictionaries

    A [dict] with string keys keeps its insertion order; [__annotations__]
    is read in that order. *)
Definition dict : Type := list (string * pyval).

Definition keys (a : dict) : list string := map fst a.

(** [a[k]] *)
Fixpoint getitem (a : dict) (k : string) : outcome pyval :=
  match a with
  | [] => raise KeyError k
  | (k', v) :: a' => if String.eqb k' k then Return v else getitem a' k
  end.

(** [xs[0]] on a list *)
Definition first {A} (xs : list A) : outcome A :=
  match xs with
  | x :: _ => Return x
  | [] => raise IndexError "list index out of range"
  end.

(** [[g(k) for k in ks if p(k)]] *)
Fixpoint comprehension {A B} (p : A -> bool) (g : A -> outcome B)
    (ks : list A) : outcome (list B) :=
  match ks with
  | [] => Return []
  | k :: ks' =>
      if p k
      then (v <- g k ;; vs <- comprehension p g ks' ;; Return (v :: vs))
      else comprehension p g ks'
  end.

(** ** Abstract syntax of a definition

    The part of the [ast] module that [signature] walks through: a module
    body of statements, [FunctionDef] with [args.args] (its
    positional-or-keyword parameters, the only ones that [signature]
    reads) and its [returns], and annotation expressions that are either
    [Name] nodes or constants such as [None]. *)
Inductive expr : Type :=
  | Name (id : string)
  | Constant (value : pyval).

Record arg : Type := mk_arg { arg_name : string; annotation : option expr }.

Inductive stmt : Type :=
  | FunctionDef (name : string) (args : list arg) (returns : option expr)
  | Pass.

(** [node.args.args] of a statement node *)
Definition args_of (s : stmt) : outcome (list arg) :=
  match s with
  | FunctionDef _ args _ => Return args
  | Pass => raise AttributeError "'Pass' object has no attribute 'args'"
  end.

(** [node.returns] of a statement node *)
Definition returns_of (s : stmt) : outcome (option expr) :=
  match s with
  | FunctionDef _ _ returns => Return returns
  | Pass => raise AttributeError "'Pass' object has no attribute 'returns'"
  end.

(** [e.id] of an optional annotation node *)
Definition id_of (e : option expr) : outcome string :=
  match e with
  | Some (Name id) => Return id
  | Some (Constant _) =>
      raise AttributeError "'Constant' object has no attribute 'id'"
  | None => raise AttributeError "'NoneType' object has no attribute 'id'"
  end.

(** ** Function objects

    A function object carries what the two extractors and the checker look
    at: the parsed source that [ast.parse(inspect.getsource(f))] gives (or
    the error it raises), the [__annotations__] mapping, and the behaviour
    of a call, which returns or raises.  Calls that never return are those
    of a [callable], further down. *)
Record function : Type := mk_function {
  fn_source : outcome (list stmt);
  fn_annotations : dict;
  fn_call : pyval -> outcome pyval
}.

(** Names visible when a [def] is executed. *)
Definition namespace : Type := list (string * pyval).

Definition builtins : namespace :=
  [("int", VType TInt); ("float", VType TFloat); ("bool", VType TBool);
   ("str", VType TStr); ("object", VType TObject); ("type", VType TType)].

Fixpoint lookup (ns : namespace) (id : string) : outcome pyval :=
  match ns with
  | [] => raise NameError id
  | (k, v) :: ns' => if String.eqb k id then Return v else lookup ns' id
  end.

Definition eval (ns : namespace) (e : expr) : outcome pyval :=
  match e with
  | Name id => lookup ns id
  | Constant v => Return v
  end.

(** The annotations of the parameters, evaluated in order. *)
Fixpoint eval_annotations (ns : namespace) (args : list arg) : outcome dict :=
  match args with
  | [] => Return []
  | a :: args' =>
      match annotation a with
      | Some e =>
          v <- eval ns e ;;
          d <- eval_annotations ns args' ;;
          Return ((arg_name a, v) :: d)
      | None => eval_annotations ns args'
      end
  end.

(** Executing [def name(args) -> returns: ...] in a namespace: the
    annotations are evaluated, parameters first and ['return'] last, and
    stored in [__annotations__].  The syntax of Python keeps the names of
    the parameters distinct and different from [return], so each
    annotation gets an entry of its own.  The parameters are plain ones,
    as all those of the notebook are. *)
Definition def (ns : namespace) (name : string) (args : list arg)
    (returns : option expr) (body : pyval -> outcome pyval)
    : outcome function :=
  d <- eval_annotations ns args ;;
  d' <- match returns with
        | Some e => v <- eval ns e ;; Return (d ++ [("return", v)])
        | None => Return d
        end ;;
  Return {| fn_source := Return [FunctionDef name args returns];
            fn_annotations := d';
            fn_call := body |}.

(** ** The two signature extractors *)

Module SourceBased.

(** [[
def signature(f):
    # Parse the function and extract types from the AST.
    a = ast.parse(inspect.getsource(f))
    type_in = a.body[0].args.args[0].annotation.id
    type_out = a.body[0].returns.id
    return (type_in, type_out)
]] *)
Definition signature (f : function) : outcome (string * string) :=
  a <- fn_source f ;;
  type_in <- (s <- first a ;; xs <- args_of s ;; x <- first xs ;;
              id_of (annotation x)) ;;
  type_out <- (s <- first a ;; r <- returns_of s ;; id_of r) ;;
  Return (type_in, type_out).

End SourceBased.

(** [[
def signature(f):
    a = f.__annotations__
    type_in = [a[k] for k in a if k != 'return'][0]
    type_out = a['return']
    return (type_in, type_out)
]] *)
Definition signature (f : function) : outcome (pyval * pyval) :=
  let a := fn_annotations f in
  type_in <- (l <- comprehension (fun k => negb (String.eqb k "return"))
                     (getitem a) (keys a) ;;
              first l) ;;
  type_out <- getitem a "return" ;;
  Return (type_in, type_out).

(** ** The functions of the notebook *)

(** [Number = int] *)
Definition notebook_globals : namespace :=
  match lookup builtins "int" with
  | Return v => ("Number", v) :: builtins
  | Raise _ => builtins
  end.

(** [[
def double(x: Number) -> Number:
    return x + x
]] *)
Definition double_body (x : pyval) : outcome pyval := py_add x x.

Definition double : outcome function :=
  def notebook_globals "double"
    [mk_arg "x" (Some (Name "Number"))] (Some (Name "Number")) double_body.

(** [[
def triple(x: int) -> int:
    return x + x + x
]] *)
Definition triple_body (x : pyval) : outcome pyval :=
  s <- py_add x x ;; py_add s x.

Definition triple : outcome function :=
  def notebook_globals "triple"
    [mk_arg "x" (Some (Name "int"))] (Some (Name "int")) triple_body.

(** [[
def floor(x: float) -> int:
    return int(x) if x > 0 else x
]] *)
Definition floor_body (x : pyval) : outcome pyval :=
  c <- py_gt x (VInt 0) ;;
  if truthy c then py_int x else Return x.

Definition floor : outcome function :=
  def notebook_globals "floor"
    [mk_arg "x" (Some (Name "float"))] (Some (Name "int")) floor_body.

(** ** Effects: the random source and calls

    The world outside [safe] is the position in the stream of raw draws of
    the [random] module and the log of the arguments the function under
    test has been called with.  A computation returns or raises, and
    leaves a world either way. *)
Record world : Type := mk_world { cursor : nat; calls : list pyval }.

Definition M (A : Type) : Type := world -> outcome A * world.

Definition ret {A} (a : A) : M A := fun w => (Return a, w).

Definition lift {A} (c : outcome A) : M A := fun w => (c, w).

Definition bindM {A B} (c : M A) (k : A -> M B) : M B :=
  fun w =>
    match c w with
    | (Return a, w') => k a w'
    | (Raise e, w') => (Raise e, w')
    end.

Notation "x <~ c ;; k" := (bindM c (fun x => k))
  (at level 61, c at next level, right associativity).

(** [try: c  except: h] with a bare [except], which handles every
    exception whatever its class. *)
Definition try_except {A} (c : M A) (h : M A) : M A :=
  fun w =>
    match c w with
    | (Return a, w') => (Return a, w')
    | (Raise _, w') => h w'
    end.

(** [f(v)] *)
Definition call (f : function) (v : pyval) : M pyval :=
  fun w => (fn_call f v, {| cursor := cursor w; calls := calls w ++ [v] |}).

(** Reading a local variable that may not have been assigned yet. *)
Definition load (name : string) (x : option pyval) : M pyval :=
  match x with
  | Some v => ret v
  | None => lift (raise UnboundLocalError name)
  end.

(** The float in [[0.0, 1.0)] made from a raw draw: its low 53 bits,
    scaled by [2**-53]. *)
Definition unit_float (r : N) : spec_float :=
  binary_normalize prec emax (Z.of_N r mod 2 ^ 53) (-53) false.

Section Random.

(** The raw draws of the generator, one per call of the library. *)
Variable rnd : nat -> N.

Definition draw : M N :=
  fun w => (Return (rnd (cursor w)),
            {| cursor := S (cursor w); calls := calls w |}).

(** [random.randint(a, b)] is [a + randbelow(b - a + 1)], and raises
    [ValueError] on an empty range; the raw draw is reduced into
    [0 .. b - a]. *)
Definition randint (a b : Z) : M pyval :=
  let width := b + 1 - a in
  if width <=? 0 then lift (raise ValueError "empty range for randrange()")
  else r <~ draw ;; ret (VInt (a + Z.of_N r mod width)).

(** [random.random()]: a 53-bit integer scaled by [2**-53]. *)
Definition random : M spec_float := r <~ draw ;; ret (unit_float r).

(** [random.uniform(a, b)] is [a + (b - a) * random()]. *)
Definition uniform (a b : pyval) : M pyval :=
  d <~ lift (py_sub b a) ;;
  u <~ random ;;
  p <~ lift (py_mul d (VFloat u)) ;;
  lift (py_add a p).

(** ** The safety checker *)

(** One pass through the two [if] statements that assign [value_in]. *)
Definition generate (type_in : pyval) (value_in : option pyval)
    : M (option pyval) :=
  value_in <~ (if is_type type_in TInt
               then v <~ randint (- 2 ^ 16) (2 ^ 16 - 1) ;; ret (Some v)
               else ret value_in) ;;
  (if is_type type_in TFloat
   then v <~ uniform (VInt (- 2 ^ 16)) (VInt (2 ^ 16 - 1)) ;; ret (Some v)
   else ret value_in).

(** The body of the [try]: call and assertion. *)
Definition check (f : function) (type_out : pyval) (value_in : option pyval)
    : M unit :=
  x <~ load "value_in" value_in ;;
  value_out <~ call f x ;;
  b <~ lift (isinstance value_out type_out) ;;
  if b then ret tt else lift (raise AssertionError "").

(** One trial: [true] when the loop goes on, [false] when the handler
    returns [False]; the local [value_in] is handed to the next trial. *)
Definition trial (f : function) (type_in type_out : pyval)
    (value_in : option pyval) : M (bool * option pyval) :=
  value_in <~ generate type_in value_in ;;
  ok <~ try_except (_ <~ check f type_out value_in ;; ret true) (ret false) ;;
  ret (ok, value_in).

(** [for i in range(n): ...] followed by [return True]. *)
Fixpoint trials (n : nat) (f : function) (type_in type_out : pyval)
    (value_in : option pyval) : M bool :=
  match n with
  | O => ret true
  | S n' =>
      r <~ trial f type_in type_out value_in ;;
      if fst r then trials n' f type_in type_out (snd r) else ret false
  end.

(** [safe] with the number of trials as a parameter. *)
Definition safe_trials (n : nat) (f : function) : M bool :=
  s <~ lift (signature f) ;;
  trials n f (fst s) (snd s) None.

(** [[
def safe(f):
    (type_in, type_out) = signature(f)
    for i in range(10000): # Run 100 trials.
        # Generate a random input of the appropriate type.
        if type_in is int:
            value_in = random.randint(-2**16, (2**16)-1)
        if type_in is float:
            value_in = random.uniform(-2**16, (2**16)-1)
        # Check that output has the correct type.
        try:
            value_out = f(value_in)
            assert(isinstance(value_out, type_out))
        except:
            return False
    return True # All trials succeeded.
]] *)
Definition safe (f : function) : M bool := safe_trials (Z.to_nat 10000) f.

End Random.

(** The world before any draw and any call. *)
Definition world0 : world := {| cursor := 0; calls := [] |}.

(** ** Runs of the loop

    [passes j s s']: [j] consecutive trials starting from the loop state
    [s] (the local [value_in] and the world) all go through, and leave the
    loop in state [s']. *)
Inductive passes (rnd : nat -> N) (f : function) (type_in type_out : pyval)
    : nat -> option pyval * world -> option pyval * world -> Prop :=
  | passes_O : forall s, passes rnd f type_in type_out O s s
  | passes_S : forall j value_in w value_in' w' s,
      trial rnd f type_in type_out value_in w = (Return (true, value_in'), w') ->
      passes rnd f type_in type_out j (value_in', w') s ->
      passes rnd f type_in type_out (S j) (value_in, w) s.

(** Two results of a call that differ at most in which exception was
    raised. *)
Definition same_but_exn (a b : outcome pyval) : Prop :=
  match a, b with
  | Return x, Return y => x = y
  | Raise _, Raise _ => True
  | _, _ => False
  end.

(** The world after one more draw. *)
Definition drawn (w : world) : world :=
  {| cursor := S (cursor w); calls := calls w |}.

(** The world after one more call. *)
Definition called (x : pyval) (w : world) : world :=
  {| cursor := cursor w; calls := calls w ++ [x] |}.

(** The values that the two generators of [safe] make from a raw draw. *)
Definition int_of_draw (r : N) : Z := - 2 ^ 16 + Z.of_N r mod 2 ^ 17.

Definition float_lo : spec_float := S754_finite true 4503599627370496 (-36).
Definition float_width : spec_float :=
  S754_finite false 9007130535264256 (-36).

Definition float_of_draw (r : N) : spec_float :=
  SFadd prec emax float_lo (SFmul prec emax float_width (unit_float r)).

(** Whether the body of the [try] goes through on the input [x]: the call
    returns and the result is an instance of [type_out]. *)
Definition conforms (f : function) (type_out x : pyval) : bool :=
  match fn_call f x with
  | Return r =>
      match isinstance r type_out with
      | Return b => b
      | Raise _ => false
      end
  | Raise _ => false
  end.

(** The function object that a [def] statement binds; when the statement
    itself raised there is none, and the stand-in raises the same way. *)
Definition defined (c : outcome function) : function :=
  match c with
  | Return f => f
  | Raise e =>
      {| fn_source := Raise e; fn_annotations := [];
         fn_call := fun _ => Raise e |}
  end.

(** An extraction that raises instead of returning a pair. *)
Definition fails {A} (c : outcome A) : Prop := exists e, c = Raise e.

(** The annotation of the first parameter that has one. *)
Fixpoint first_annotation (args : list arg) : option expr :=
  match args with
  | [] => None
  | a :: args' =>
      match annotation a with
      | Some e => Some e
      | None => first_annotation args'
      end
  end.


(** The value under a key that is known to be present. *)
Definition value_at (a : dict) (k : string) : pyval :=
  match getitem a k with
  | Return v => v
  | Raise _ => VNone
  end.

(** ** Binary64 arithmetic

    [within lo hi x]: both [lo <= x] and [x <= hi] evaluate to [True]. *)
Definition within (lo hi : Z) (x : spec_float) : Prop :=
  py_le (VInt lo) (VFloat x) = Return (VBool true) /\
  py_le (VFloat x) (VInt hi) = Return (VBool true).

(** Number of binary digits of a mantissa. *)
Definition dig (m : positive) : Z := Zpos (digits2_pos m).

(** What [j] right shifts have made of the mantissa [M]: the quotient by
    [2 ^ j] is kept, and the round and sticky bits say whether the
    remainder is zero. *)
Definition shr_inv (M j : Z) (mrs : shr_record) : Prop :=
  exists rem,
    M = shr_m mrs * 2 ^ j + rem /\ 0 <= rem < 2 ^ j /\ 0 <= shr_m mrs /\
    (orb (shr_r mrs) (shr_s mrs) = false <-> rem = 0).

(** ** More of the notebook *)

Module Builtin.

(** [[
def f(x: int) -> int:
    return x + x
]]
    It is defined before [Number] is bound. *)
Definition f : outcome function :=
  def builtins "f" [mk_arg "x" (Some (Name "int"))] (Some (Name "int"))
    (fun x => py_add x x).

End Builtin.

(** The input that a trial generates when the cursor of the random source
    is at [i]; [None] when the input type has no generator. *)
Definition generated (rnd : nat -> N) (type_in : pyval) (i : nat)
    : option pyval :=
  match fst (generate rnd type_in None {| cursor := i; calls := [] |}) with
  | Return value_in => value_in
  | Raise _ => None
  end.

(** The inputs generated by [k] trials in a row, the first with the cursor
    at [i]. *)
Fixpoint inputs (rnd : nat -> N) (type_in : pyval) (i k : nat) : list pyval :=
  match k with
  | O => []
  | S k' =>
      match generated rnd type_in i with
      | Some x => x :: inputs rnd type_in (S i) k'
      | None => inputs rnd type_in (S i) k'
      end
  end.

(** The last cell of the notebook: [(safe(triple), safe(floor))], the two
    checks one after the other on the same random source. *)
Definition last_cell (rnd : nat -> N) : M (bool * bool) :=
  a <~ safe rnd (defined triple) ;;
  b <~ safe rnd (defined floor) ;;
  ret (a, b).

(** ** Calls that never return

    The call of a [function] returns or raises.  A callable may also run
    forever: [returns_on c x] tells whether its call on [x] comes back,
    and when it does, the call behaves as that of [as_function c].  A
    computation that may never return has no result and leaves no world:
    [None]. *)
Record callable : Type := mk_callable {
  as_function : function;
  returns_on : pyval -> bool
}.

Definition MP (A : Type) : Type := world -> option (outcome A * world).

Module Nonterminating.

Definition ret {A} (a : A) : MP A := fun w => Some (Return a, w).

(** A computation that always comes back. *)
Definition returning {A} (c : M A) : MP A := fun w => Some (c w).

Definition bindM {A B} (c : MP A) (k : A -> MP B) : MP B :=
  fun w =>
    match c w with
    | Some (Return a, w') => k a w'
    | Some (Raise e, w') => Some (Raise e, w')
    | None => None
    end.

Notation "x <~~ c ;; k" := (bindM c (fun x => k))
  (at level 61, c at next level, right associativity).

(** [try: c  except: h]: nothing is handled while [c] is still running. *)
Definition try_except {A} (c : MP A) (h : MP A) : MP A :=
  fun w =>
    match c w with
    | Some (Return a, w') => Some (Return a, w')
    | Some (Raise _, w') => h w'
    | None => None
    end.

(** [f(v)] *)
Definition call (c : callable) (v : pyval) : MP pyval :=
  fun w => if returns_on c v then Some (call (as_function c) v w) else None.

Section Random.

Variable rnd : nat -> N.

(** The body of the [try]. *)
Definition check (c : callable) (type_out : pyval) (value_in : option pyval)
    : MP unit :=
  x <~~ returning (load "value_in" value_in) ;;
  value_out <~~ call c x ;;
  b <~~ returning (lift (isinstance value_out type_out)) ;;
  if b then ret tt else returning (lift (raise AssertionError "")).

(** One trial. *)
Definition trial (c : callable) (type_in type_out : pyval)
    (value_in : option pyval) : MP (bool * option pyval) :=
  value_in <~~ returning (generate rnd type_in value_in) ;;
  ok <~~ try_except (_ <~~ check c type_out value_in ;; ret true) (ret false) ;;
  ret (ok, value_in).

(** The loop. *)
Fixpoint trials (n : nat) (c : callable) (type_in type_out : pyval)
    (value_in : option pyval) : MP bool :=
  match n with
  | O => ret true
  | S n' =>
      r <~~ trial c type_in type_out value_in ;;
      if fst r then trials n' c type_in type_out (snd r) else ret false
  end.

Definition safe_trials (n : nat) (c : callable) : MP bool :=
  s <~~ returning (lift (signature (as_function c))) ;;
  trials n c (fst s) (snd s) None.

(** [safe], applied to a callable that may run forever. *)
Definition safe (c : callable) : MP bool := safe_trials (Z.to_nat 10000) c.

End Random.

End Nonterminating.

(** [[
def spin(x: int) -> int:
    while True: pass
]]
    A callable that never returns, which the notebook does not have. *)
Definition spin : callable :=
  {| as_function :=
       defined (def builtins "spin" [mk_arg "x" (Some (Name "int"))]
                  (Some (Name "int")) (fun x => Return x));
     returns_on := fun _ => false |}.

(** ** The loop, step by step *)

Lemma float_lo_eq : float_of_Z (- 2 ^ 16) = Return float_lo.
Proof. reflexivity. Qed.

Lemma float_width_eq : float_of_Z (2 ^ 16 - 1 - - 2 ^ 16) = Return float_width.
Proof. reflexivity. Qed.

Lemma randint_eq rnd w :
  randint rnd (- 2 ^ 16) (2 ^ 16 - 1) w
  = (Return (VInt (int_of_draw (rnd (cursor w)))), drawn w).
Proof. reflexivity. Qed.

Lemma uniform_eq rnd w :
  uniform rnd (VInt (- 2 ^ 16)) (VInt (2 ^ 16 - 1)) w
  = (Return (VFloat (float_of_draw (rnd (cursor w)))), drawn w).
Proof.
  unfold uniform, bindM, lift, random, draw, ret, py_sub, py_mul, py_add.
  cbn [as_number].
  rewrite float_width_eq. cbn [bind].
  rewrite float_lo_eq. reflexivity.
Qed.

Lemma pytype_eqb_eq a b : pytype_eqb a b = true <-> a = b.
Proof. destruct a, b; simpl; split; intro H; congruence. Qed.

Lemma is_type_eq v t : is_type v t = true <-> v = VType t.
Proof.
  destruct v; simpl; try (split; intro H; discriminate).
  rewrite pytype_eqb_eq. split; intro H; congruence.
Qed.

Lemma generate_int rnd value_in w :
  generate rnd (VType TInt) value_in w
  = (Return (Some (VInt (int_of_draw (rnd (cursor w))))), drawn w).
Proof. reflexivity. Qed.

Lemma generate_float rnd value_in w :
  generate rnd (VType TFloat) value_in w
  = (Return (Some (VFloat (float_of_draw (rnd (cursor w))))), drawn w).
Proof.
  unfold generate, bindM. cbn [is_type pytype_eqb ret].
  rewrite uniform_eq. reflexivity.
Qed.

Lemma generate_other rnd type_in value_in w :
  is_type type_in TInt = false -> is_type type_in TFloat = false ->
  generate rnd type_in value_in w = (Return value_in, w).
Proof. intros Hi Hf. unfold generate, bindM. rewrite Hi, Hf. reflexivity. Qed.

Lemma check_unbound f type_out w :
  check f type_out None w
  = (Raise (mkExn UnboundLocalError "value_in"), w).
Proof. reflexivity. Qed.

Lemma check_bound f type_out x w :
  exists r : outcome unit,
    check f type_out (Some x) w = (r, called x w) /\
    (conforms f type_out x = true <-> r = Return tt).
Proof.
  unfold check, conforms, bindM, load, call, ret, lift, called.
  destruct (fn_call f x) as [r|e].
  - destruct (isinstance r type_out) as [[|]|e]; cbn;
      eexists; (split; [reflexivity|]); split; intro H;
        reflexivity || discriminate.
  - eexists; split; [reflexivity|]. split; intro H; discriminate.
Qed.

Lemma trial_bound rnd f type_in type_out value_in w x w1 :
  generate rnd type_in value_in w = (Return (Some x), w1) ->
  trial rnd f type_in type_out value_in w
  = (Return (conforms f type_out x, Some x), called x w1).
Proof.
  intro Hg. unfold trial, bindM at 1. rewrite Hg.
  unfold bindM, try_except.
  destruct (check_bound f type_out x w1) as (r & Hc & Hr). rewrite Hc.
  destruct r as [[]|e].
  - assert (conforms f type_out x = true) as -> by (apply Hr; reflexivity).
    reflexivity.
  - destruct (conforms f type_out x); [|reflexivity].
    assert (Raise e = Return tt) by (apply Hr; reflexivity). discriminate.
Qed.

Lemma trial_unbound rnd f type_in type_out value_in w w1 :
  generate rnd type_in value_in w = (Return None, w1) ->
  trial rnd f type_in type_out value_in w = (Return (false, None), w1).
Proof. intro Hg. unfold trial, bindM at 1. rewrite Hg. reflexivity. Qed.

Lemma trials_S rnd n f type_in type_out value_in w :
  trials rnd (S n) f type_in type_out value_in w
  = match trial rnd f type_in type_out value_in w with
    | (Return (true, value_in'), w') =>
        trials rnd n f type_in type_out value_in' w'
    | (Return (false, _), w') => (Return false, w')
    | (Raise e, w') => (Raise e, w')
    end.
Proof.
  cbn [trials]. unfold bindM at 1.
  destruct (trial rnd f type_in type_out value_in w) as [[[[|] v]|e] w'];
    reflexivity.
Qed.

Lemma generate_returns rnd type_in value_in w :
  exists v w', generate rnd type_in value_in w = (Return v, w').
Proof.
  destruct (is_type type_in TInt) eqn:Hi.
  - apply is_type_eq in Hi. subst. rewrite generate_int. eauto.
  - destruct (is_type type_in TFloat) eqn:Hf.
    + apply is_type_eq in Hf. subst. rewrite generate_float. eauto.
    + rewrite generate_other by assumption. eauto.
Qed.

Lemma trial_returns rnd f type_in type_out value_in w :
  exists b v w',
    trial rnd f type_in type_out value_in w = (Return (b, v), w').
Proof.
  destruct (generate_returns rnd type_in value_in w) as ([x|] & w1 & Hg).
  - rewrite (trial_bound _ _ _ _ _ _ _ _ Hg). eauto.
  - rewrite (trial_unbound _ _ _ _ _ _ _ Hg). eauto.
Qed.

Lemma trials_returns rnd n f type_in type_out :
  forall value_in w,
  exists b w', trials rnd n f type_in type_out value_in w = (Return b, w').
Proof.
  induction n as [|n IH]; intros value_in w.
  - cbn. unfold ret. eauto.
  - rewrite trials_S.
    destruct (trial_returns rnd f type_in type_out value_in w)
      as ([|] & v & w' & Ht); rewrite Ht; eauto.
Qed.

Lemma safe_trials_eq rnd n f type_in type_out w :
  signature f = Return (type_in, type_out) ->
  safe_trials rnd n f w = trials rnd n f type_in type_out None w.
Proof.
  intro Hs. unfold safe_trials, bindM, lift. rewrite Hs. reflexivity.
Qed.

Lemma trials_passes rnd f type_in type_out j :
  forall n s s',
  passes rnd f type_in type_out j s s' ->
  trials rnd (j + n) f type_in type_out (fst s) (snd s)
  = trials rnd n f type_in type_out (fst s') (snd s').
Proof.
  induction j as [|j IH]; intros n s s' Hp; inversion Hp; subst.
  - reflexivity.
  - cbn [Nat.add fst snd]. rewrite trials_S.
    match goal with H : trial _ _ _ _ _ _ = _ |- _ => rewrite H end.
    apply (IH n (value_in', w') s'). assumption.
Qed.

Lemma trials_conform rnd f type_in type_out :
  (forall value_in w, exists x w1,
      generate rnd type_in value_in w = (Return (Some x), w1) /\
      conforms f type_out x = true) ->
  forall n value_in w,
    fst (trials rnd n f type_in type_out value_in w) = Return true.
Proof.
  intros Hgen. induction n as [|n IH]; intros value_in w.
  - reflexivity.
  - rewrite trials_S.
    destruct (Hgen value_in w) as (x & w1 & Hg & Hc).
    rewrite (trial_bound _ _ _ _ _ _ _ _ Hg), Hc. apply IH.
Qed.

Lemma conforms_intro f type_out x r :
  fn_call f x = Return r -> isinstance r type_out = Return true ->
  conforms f type_out x = true.
Proof. intros Hc Hi. unfold conforms. rewrite Hc, Hi. reflexivity. Qed.

(** ** The claims *)

(** C1: a function that, on every instance of its declared input type,
    returns an instance of its declared output type is reported safe,
    whatever the number of trials and whatever the random draws, when the
    declared input type is [int] or [float]. *)
Theorem well_typed_is_safe rnd f type_in type_out :
  signature f = Return (type_in, type_out) ->
  is_type type_in TInt = true \/ is_type type_in TFloat = true ->
  (forall x, isinstance x type_in = Return true ->
     exists r, fn_call f x = Return r /\ isinstance r type_out = Return true) ->
  forall w,
    (forall n, fst (safe_trials rnd n f w) = Return true) /\
    fst (safe rnd f w) = Return true.
Proof.
  intros Hs Hin Hf w.
  assert (forall n, fst (safe_trials rnd n f w) = Return true) as Hn.
  { intro n. rewrite (safe_trials_eq _ _ _ _ _ _ Hs).
    apply trials_conform. intros value_in w0.
    destruct Hin as [Hi|Hi]; apply is_type_eq in Hi; subst type_in.
    - rewrite generate_int. do 2 eexists. split; [reflexivity|].
      destruct (Hf (VInt (int_of_draw (rnd (cursor w0)))) eq_refl)
        as (r & Hc & Hr).
      exact (conforms_intro _ _ _ _ Hc Hr).
    - rewrite generate_float. do 2 eexists. split; [reflexivity|].
      destruct (Hf (VFloat (float_of_draw (rnd (cursor w0)))) eq_refl)
        as (r & Hc & Hr).
      exact (conforms_intro _ _ _ _ Hc Hr). }
  split; [exact Hn | apply Hn].
Qed.

Lemma well_typed_is_safe_witness :
  signature (defined triple) = Return (VType TInt, VType TInt) /\
  fst (safe (fun i => N.of_nat (7 * i)) (defined triple) world0) = Return true.
Proof.
  split; [reflexivity|].
  apply (well_typed_is_safe (fun i => N.of_nat (7 * i)) (defined triple)
           (VType TInt) (VType TInt)).
  - reflexivity.
  - left. reflexivity.
  - intros x Hx. destruct x; try discriminate.
    + eexists. split; reflexivity.
    + eexists. split; reflexivity.
Defined.

(** C4: [triple] maps every integer to an integer, its sum with itself
    twice, and [safe(triple)] is true whatever the random draws. *)
Theorem triple_is_safe :
  exists f, triple = Return f /\
    (forall z, fn_call f (VInt z) = Return (VInt (z + z + z)) /\
               isinstance (VInt (z + z + z)) (VType TInt) = Return true) /\
    (forall rnd w, fst (safe rnd f w) = Return true).
Proof.
  eexists. split; [reflexivity|]. split.
  - intro z. split; reflexivity.
  - intros rnd w. unfold safe.
    rewrite (safe_trials_eq _ _ _ (VType TInt) (VType TInt)) by reflexivity.
    apply trials_conform. intros value_in w0.
    rewrite generate_int. do 2 eexists. split; reflexivity.
Qed.

(** C6: on [double], declared with the alias [Number = int], the
    source-based extractor returns the alias's name for both slots and the
    attribute-based extractor returns the type object [int] that the alias
    evaluates to. *)
Theorem alias_name_versus_type :
  exists f, double = Return f /\
    lookup notebook_globals "Number" = Return (VType TInt) /\
    SourceBased.signature f = Return ("Number", "Number") /\
    signature f = Return (VType TInt, VType TInt) /\
    lookup builtins "Number" = Raise (mkExn NameError "Number").
Proof. eexists. repeat split; reflexivity. Qed.

(** C10: when the extracted input type is neither [int] nor [float],
    [safe] returns [False] in its first trial, without a draw and without
    a call: [value_in] is unbound and the handler turns the error into the
    verdict. *)
Theorem unhandled_input_type_is_unsafe rnd f type_in type_out w :
  signature f = Return (type_in, type_out) ->
  is_type type_in TInt = false ->
  is_type type_in TFloat = false ->
  safe rnd f w = (Return false, w) /\
  (forall n, safe_trials rnd (S n) f w = (Return false, w)) /\
  check f type_out None w = (Raise (mkExn UnboundLocalError "value_in"), w).
Proof.
  intros Hs Hi Hf.
  assert (forall n, safe_trials rnd (S n) f w = (Return false, w)) as Hn.
  { intro n. rewrite (safe_trials_eq _ _ _ _ _ _ Hs), trials_S.
    rewrite (trial_unbound _ _ _ _ _ _ _ (generate_other _ _ _ _ Hi Hf)).
    reflexivity. }
  split; [|split]; [ | exact Hn | reflexivity].
  unfold safe. change (Z.to_nat 10000) with (S (Z.to_nat 9999)). apply Hn.
Qed.

Lemma unhandled_input_type_is_unsafe_witness :
  let f := defined (def notebook_globals "shout"
                      [mk_arg "s" (Some (Name "str"))] (Some (Name "str"))
                      (fun s => Return s)) in
  signature f = Return (VType TStr, VType TStr) /\
  safe (fun _ => 0%N) f world0 = (Return false, world0).
Proof.
  split; [reflexivity|].
  apply (unhandled_input_type_is_unsafe (fun _ => 0%N) _
           (VType TStr) (VType TStr) world0); reflexivity.
Defined.

Lemma trial_fails_on_raise rnd f type_in type_out value_in w value_in' w1 e w2 :
  generate rnd type_in value_in w = (Return value_in', w1) ->
  check f type_out value_in' w1 = (Raise e, w2) ->
  trial rnd f type_in type_out value_in w = (Return (false, value_in'), w2).
Proof.
  intros Hg Hc. unfold trial, bindM at 1. rewrite Hg.
  unfold bindM, try_except. rewrite Hc. reflexivity.
Qed.

(** C2: the loop is fail-fast.  When, after [j] trials that went through,
    the body of the [try] raises (an error of the function, of the instance
    check, or the failed assertion), [safe] returns [False] with the world
    as that trial left it, however many trials were still to run: nothing
    more is drawn and nothing more is called. *)
Theorem fail_fast rnd f type_in type_out n j w value_in w1 value_in' w2 e w3 :
  signature f = Return (type_in, type_out) ->
  passes rnd f type_in type_out j (None, w) (value_in, w1) ->
  generate rnd type_in value_in w1 = (Return value_in', w2) ->
  check f type_out value_in' w2 = (Raise e, w3) ->
  (j < n)%nat ->
  safe_trials rnd n f w = (Return false, w3) /\
  safe_trials rnd n f w = safe_trials rnd (S j) f w.
Proof.
  intros Hs Hp Hg Hc Hlt.
  assert (forall m, safe_trials rnd (j + S m) f w = (Return false, w3)) as H.
  { intro m. rewrite (safe_trials_eq _ _ _ _ _ _ Hs).
    rewrite (trials_passes _ _ _ _ _ _ _ _ Hp). cbn [fst snd].
    rewrite trials_S, (trial_fails_on_raise _ _ _ _ _ _ _ _ _ _ Hg Hc).
    reflexivity. }
  assert (safe_trials rnd n f w = (Return false, w3)) as Hn.
  { replace n with (j + S (n - S j))%nat by lia. apply H. }
  split; [exact Hn|]. rewrite Hn.
  replace (S j) with (j + 1)%nat by lia. symmetry. apply H.
Qed.

Lemma fail_fast_witness :
  let rnd := fun i => match i with O => (2 ^ 53 - 1)%N | _ => 0%N end in
  safe rnd (defined floor) world0
  = (Return false,
     {| cursor := 2;
        calls := [VFloat (S754_finite false 9007061815787518 (-37));
                  VFloat (S754_finite true 4503599627370496 (-36))] |}).
Proof.
  intro rnd.
  refine (proj1 (fail_fast rnd (defined floor) (VType TFloat) (VType TInt)
                   (Z.to_nat 10000) 1 world0 _ _ _ _ _ _ _ _ _ _ _)).
  - reflexivity.
  - eapply passes_S; [reflexivity | apply passes_O].
  - reflexivity.
  - reflexivity.
  - apply Nat.ltb_lt. reflexivity.
Defined.

Lemma floor_nonpositive x :
  py_gt (VFloat x) (VInt 0) = Return (VBool false) ->
  floor_body (VFloat x) = Return (VFloat x) /\
  isinstance (VFloat x) (VType TInt) = Return false.
Proof.
  intro H. unfold floor_body. rewrite H. split; reflexivity.
Qed.

Lemma floor_trials rnd n :
  forall j value_in w,
  (j < n)%nat ->
  py_gt (VFloat (float_of_draw (rnd (cursor w + j)%nat))) (VInt 0)
  = Return (VBool false) ->
  fst (trials rnd n (defined floor) (VType TFloat) (VType TInt) value_in w)
  = Return false.
Proof.
  induction n as [|n IH]; intros j value_in w Hlt Hneg; [lia|].
  rewrite trials_S.
  rewrite (trial_bound _ _ _ _ _ _ _ _ (generate_float rnd value_in w)).
  destruct (conforms (defined floor) (VType TInt)
              (VFloat (float_of_draw (rnd (cursor w))))) eqn:Hc;
    [|reflexivity].
  destruct j as [|j].
  - rewrite Nat.add_0_r in Hneg.
    unfold conforms in Hc. cbn [defined floor def fn_call] in Hc.
    change (fn_call (defined floor)) with floor_body in Hc.
    destruct (floor_nonpositive _ Hneg) as [Hb Hi].
    rewrite Hb, Hi in Hc. discriminate.
  - apply (IH j); [lia|].
    cbn [called drawn cursor].
    rewrite Nat.add_succ_r in Hneg. exact Hneg.
Qed.

(** C3: on every float that is not positive, [floor] returns its argument,
    a float and no instance of [int]; so [safe(floor)] is false as soon as
    one of its trials draws such an input. *)
Theorem floor_is_unsafe :
  (forall x, py_gt (VFloat x) (VInt 0) = Return (VBool false) ->
     fn_call (defined floor) (VFloat x) = Return (VFloat x) /\
     isinstance (VFloat x) (VType TFloat) = Return true /\
     isinstance (VFloat x) (VType TInt) = Return false) /\
  (forall rnd w j x value_in l,
     (j < Z.to_nat 10000)%nat ->
     fst (generate rnd (VType TFloat) value_in
            {| cursor := cursor w + j; calls := l |}) = Return (Some x) ->
     py_gt x (VInt 0) = Return (VBool false) ->
     floor = Return (defined floor) /\
     fst (safe rnd (defined floor) w) = Return false).
Proof.
  split.
  - intros x H. destruct (floor_nonpositive x H) as [Hb Hi].
    repeat split; assumption.
  - intros rnd w j x value_in l Hlt Hg Hneg. split; [reflexivity|].
    rewrite generate_float in Hg. cbn [fst cursor] in Hg.
    injection Hg as <-.
    unfold safe.
    rewrite (safe_trials_eq _ _ _ (VType TFloat) (VType TInt)) by reflexivity.
    apply (floor_trials rnd _ j); assumption.
Qed.

Lemma floor_is_unsafe_witness :
  fst (safe (fun _ => 0%N) (defined floor) world0) = Return false.
Proof.
  refine (proj2 (proj2 floor_is_unsafe (fun _ => 0%N) world0 O
                   (VFloat float_lo) None [] _ _ _)).
  - apply Nat.ltb_lt. reflexivity.
  - reflexivity.
  - reflexivity.
Defined.

Lemma conforms_false f type_out x :
  (exists e, fn_call f x = Raise e) \/
  (exists r, fn_call f x = Return r /\ isinstance r type_out <> Return true) ->
  conforms f type_out x = false.
Proof.
  unfold conforms. intros [(e & ->)|(r & -> & Hi)]; [reflexivity|].
  destruct (isinstance r type_out) as [[|]|e]; congruence.
Qed.

Lemma conforms_same_but_exn f g type_out x :
  same_but_exn (fn_call f x) (fn_call g x) ->
  conforms g type_out x = conforms f type_out x.
Proof.
  unfold same_but_exn, conforms.
  destruct (fn_call f x), (fn_call g x); intro H;
    subst; reflexivity || contradiction.
Qed.

Lemma trial_same_but_exn rnd f g type_in type_out value_in w :
  (forall x, same_but_exn (fn_call f x) (fn_call g x)) ->
  trial rnd g type_in type_out value_in w
  = trial rnd f type_in type_out value_in w.
Proof.
  intro H.
  destruct (generate_returns rnd type_in value_in w) as ([x|] & w1 & Hg).
  - rewrite !(trial_bound _ _ _ _ _ _ _ _ Hg).
    rewrite (conforms_same_but_exn f g) by apply H. reflexivity.
  - rewrite !(trial_unbound _ _ _ _ _ _ _ Hg). reflexivity.
Qed.

Lemma trials_same_but_exn rnd f g type_in type_out n :
  (forall x, same_but_exn (fn_call f x) (fn_call g x)) ->
  forall value_in w,
  trials rnd n g type_in type_out value_in w
  = trials rnd n f type_in type_out value_in w.
Proof.
  intro H. induction n as [|n IH]; intros value_in w; [reflexivity|].
  rewrite !trials_S, (trial_same_but_exn _ f g) by exact H.
  destruct (trial rnd f type_in type_out value_in w) as [[[[|] v]|e] w'];
    auto.
Qed.

(** C5: whatever the function under test raises, and whenever the result
    is not an instance of the declared output type, the trial ends in the
    verdict [False]; no exception leaves the loop; and the result of
    [safe] carries nothing of the error: two functions that differ only in
    which exceptions they raise get the same result. *)
Theorem errors_become_false rnd f type_in type_out :
  signature f = Return (type_in, type_out) ->
  forall n w,
    (exists b w', safe_trials rnd n f w = (Return b, w')) /\
    (forall j value_in w0 x w1,
        passes rnd f type_in type_out j (None, w) (value_in, w0) ->
        generate rnd type_in value_in w0 = (Return (Some x), w1) ->
        (exists e, fn_call f x = Raise e) \/
        (exists r, fn_call f x = Return r /\
                   isinstance r type_out <> Return true) ->
        (j < n)%nat ->
        safe_trials rnd n f w = (Return false, called x w1)) /\
    (forall g,
        fn_annotations g = fn_annotations f ->
        (forall x, same_but_exn (fn_call f x) (fn_call g x)) ->
        safe_trials rnd n g w = safe_trials rnd n f w).
Proof.
  intros Hs n w. split; [|split].
  - rewrite (safe_trials_eq _ _ _ _ _ _ Hs). apply trials_returns.
  - intros j value_in w0 x w1 Hp Hg Hbad Hlt.
    rewrite (safe_trials_eq _ _ _ _ _ _ Hs).
    replace n with (j + S (n - S j))%nat by lia.
    rewrite (trials_passes _ _ _ _ _ _ _ _ Hp). cbn [fst snd].
    rewrite trials_S, (trial_bound _ _ _ _ _ _ _ _ Hg).
    rewrite (conforms_false _ _ _ Hbad). reflexivity.
  - intros g Ha Hsame.
    assert (signature g = Return (type_in, type_out)) as Hs'.
    { unfold signature in *. rewrite Ha. exact Hs. }
    rewrite (safe_trials_eq _ _ _ _ _ _ Hs), (safe_trials_eq _ _ _ _ _ _ Hs').
    apply trials_same_but_exn. exact Hsame.
Qed.

Lemma errors_become_false_witness :
  signature (defined floor) = Return (VType TFloat, VType TInt) /\
  exists b w',
    safe_trials (fun _ => 0%N) 3 (defined floor) world0 = (Return b, w').
Proof.
  split; [reflexivity|].
  refine (proj1 (errors_become_false (fun _ => 0%N) (defined floor)
                   (VType TFloat) (VType TInt) _ 3%nat world0)).
  reflexivity.
Defined.

Lemma passes_counts rnd f type_in type_out j s s' :
  is_type type_in TInt = true \/ is_type type_in TFloat = true ->
  passes rnd f type_in type_out j s s' ->
  cursor (snd s') = (cursor (snd s) + j)%nat /\
  List.length (calls (snd s')) = (List.length (calls (snd s)) + j)%nat.
Proof.
  intros Hin Hp. induction Hp as [s|j value_in w value_in' w' s Ht Hp IH].
  - split; lia.
  - assert (exists x, generate rnd type_in value_in w
                      = (Return (Some x), drawn w)) as (x & Hg).
    { destruct Hin as [Hi|Hi]; apply is_type_eq in Hi; subst type_in.
      - rewrite generate_int. eauto.
      - rewrite generate_float. eauto. }
    rewrite (trial_bound _ _ _ _ _ _ _ _ Hg) in Ht.
    injection Ht as _ _ <-. cbn [snd called drawn cursor calls] in *.
    rewrite length_app in IH. cbn [List.length] in IH. split; lia.
Qed.

Lemma trials_run rnd f type_in type_out n :
  forall value_in w,
  (exists s', passes rnd f type_in type_out n (value_in, w) s' /\
      trials rnd n f type_in type_out value_in w = (Return true, snd s')) \/
  (exists j s v w', (j < n)%nat /\
      passes rnd f type_in type_out j (value_in, w) s /\
      trial rnd f type_in type_out (fst s) (snd s) = (Return (false, v), w') /\
      trials rnd n f type_in type_out value_in w = (Return false, w')).
Proof.
  induction n as [|n IH]; intros value_in w.
  - left. exists (value_in, w). split; [constructor | reflexivity].
  - rewrite trials_S.
    destruct (trial_returns rnd f type_in type_out value_in w)
      as ([|] & v & w' & Ht); rewrite Ht.
    + destruct (IH v w') as [(s' & Hp & Hr)|(j & s & v' & w'' & Hj & Hp & Hf & Hr)].
      * left. exists s'. split; [econstructor; eassumption | exact Hr].
      * right. exists (S j), s, v', w''.
        repeat split; [lia | econstructor; eassumption | exact Hf | exact Hr].
    + right. exists O, (value_in, w), v, w'.
      repeat split; [lia | constructor | exact Ht].
Qed.

Lemma safe_run_shape rnd f type_in type_out w :
  signature f = Return (type_in, type_out) ->
  is_type type_in TInt = true \/ is_type type_in TFloat = true ->
  (exists s', passes rnd f type_in type_out (Z.to_nat 10000) (None, w) s' /\
      safe rnd f w = (Return true, snd s') /\
      cursor (snd s') = (cursor w + Z.to_nat 10000)%nat /\
      List.length (calls (snd s'))
      = (List.length (calls w) + Z.to_nat 10000)%nat) \/
  (exists j s v w', (j < Z.to_nat 10000)%nat /\
      passes rnd f type_in type_out j (None, w) s /\
      trial rnd f type_in type_out (fst s) (snd s) = (Return (false, v), w') /\
      safe rnd f w = (Return false, w') /\
      cursor w' = (cursor w + S j)%nat /\
      List.length (calls w') = (List.length (calls w) + S j)%nat).
Proof.
  intros Hs Hin. unfold safe. rewrite (safe_trials_eq _ _ _ _ _ _ Hs).
  destruct (trials_run rnd f type_in type_out (Z.to_nat 10000) None w)
    as [(s' & Hp & Hr)|(j & s & v & w' & Hj & Hp & Hf & Hr)].
  - left. exists s'. destruct (passes_counts _ _ _ _ _ _ _ Hin Hp).
    repeat split; assumption.
  - right. exists j, s, v, w'.
    destruct (passes_counts _ _ _ _ _ _ _ Hin Hp) as [Hc Hl].
    cbn [snd] in Hc, Hl.
    assert (exists x, generate rnd type_in (fst s) (snd s)
                      = (Return (Some x), drawn (snd s))) as (x & Hg).
    { destruct Hin as [Hi|Hi]; apply is_type_eq in Hi; subst type_in.
      - rewrite generate_int. eauto.
      - rewrite generate_float. eauto. }
    pose proof (trial_bound rnd f _ type_out _ _ _ _ Hg) as Ht.
    rewrite Hf in Ht. injection Ht as _ _ ->.
    cbn [called drawn cursor calls]. rewrite length_app. cbn [List.length].
    repeat split; try assumption; lia.
Qed.

Lemma generated_int rnd i :
  generated rnd (VType TInt) i = Some (VInt (int_of_draw (rnd i))).
Proof. reflexivity. Qed.

Lemma generated_float rnd i :
  generated rnd (VType TFloat) i = Some (VFloat (float_of_draw (rnd i))).
Proof. unfold generated. rewrite generate_float. reflexivity. Qed.

Lemma generate_generated rnd type_in value_in w :
  is_type type_in TInt = true \/ is_type type_in TFloat = true ->
  exists x, generated rnd type_in (cursor w) = Some x /\
            generate rnd type_in value_in w = (Return (Some x), drawn w).
Proof.
  intros [Hi|Hi]; apply is_type_eq in Hi; subst type_in.
  - rewrite generated_int, generate_int. eauto.
  - rewrite generated_float, generate_float. eauto.
Qed.

Lemma nonterminating_trial rnd c type_in type_out value_in w :
  (forall x w1, generate rnd type_in value_in w = (Return (Some x), w1) ->
                returns_on c x = true) ->
  Nonterminating.trial rnd c type_in type_out value_in w
  = Some (trial rnd (as_function c) type_in type_out value_in w).
Proof.
  intro H. unfold Nonterminating.trial, trial.
  unfold Nonterminating.bindM at 1, Nonterminating.returning at 1.
  unfold bindM at 1.
  destruct (generate rnd type_in value_in w) as [[[x|]|e] w1] eqn:Hg;
    try reflexivity.
  specialize (H x w1 eq_refl).
  unfold Nonterminating.bindM, Nonterminating.try_except, Nonterminating.check,
    Nonterminating.call, Nonterminating.returning, Nonterminating.ret,
    bindM, try_except, check, load, call, ret, lift.
  cbn. unfold Nonterminating.bindM. rewrite H.
  destruct (fn_call (as_function c) x) as [r|e]; [|reflexivity].
  destruct (isinstance r type_out) as [[|]|e]; reflexivity.
Qed.

Lemma nonterminating_trials rnd c type_in type_out n :
  is_type type_in TInt = true \/ is_type type_in TFloat = true ->
  forall value_in w,
  (forall j x, (j < n)%nat ->
     generated rnd type_in (cursor w + j) = Some x -> returns_on c x = true) ->
  Nonterminating.trials rnd n c type_in type_out value_in w
  = Some (trials rnd n (as_function c) type_in type_out value_in w).
Proof.
  intro Hin. induction n as [|n IH]; intros value_in w H; [reflexivity|].
  destruct (generate_generated rnd type_in value_in w Hin) as (x0 & Hx0 & Hg).
  rewrite trials_S. cbn [Nonterminating.trials].
  unfold Nonterminating.bindM at 1.
  rewrite nonterminating_trial.
  - rewrite (trial_bound _ _ _ _ _ _ _ _ Hg). cbn [fst snd].
    destruct (conforms (as_function c) type_out x0); [|reflexivity].
    apply IH. intros j x Hj Hx. apply (H (S j) x); [lia|].
    cbn [called drawn cursor] in Hx. rewrite Nat.add_succ_r. exact Hx.
  - intros x w1 Hx. rewrite Hg in Hx. injection Hx as <- _.
    apply (H O x0); [lia|]. rewrite Nat.add_0_r. exact Hx0.
Qed.

(** C9, as the code has it: [spin] is declared [int -> int], its
    signature is extracted, and [safe(spin)] never returns: the first call
    does not come back and nothing bounds it. *)
Lemma spin_never_returns :
  signature (as_function spin) = Return (VType TInt, VType TInt) /\
  forall rnd w, Nonterminating.safe rnd spin w = None.
Proof.
  split; [reflexivity|]. intros rnd w.
  unfold Nonterminating.safe, Nonterminating.safe_trials.
  unfold Nonterminating.bindM at 1, Nonterminating.returning at 1.
  change (lift (signature (as_function spin)) w)
    with (Return (VType TInt, VType TInt), w).
  cbn [fst snd].
  change (Z.to_nat 10000) with (S (Z.to_nat 9999)).
  cbn [Nonterminating.trials]. unfold Nonterminating.bindM at 1.
  unfold Nonterminating.trial.
  unfold Nonterminating.bindM at 1, Nonterminating.returning at 1.
  rewrite generate_int. reflexivity.
Qed.

(** C9, amended: with an extracted signature whose input type is [int] or
    [float], and a callable whose calls on the generated inputs come back
    (each returns or raises), a call of [safe] comes back with a boolean
    and never raises: either all 10000 trials go through and it returns
    [True], or [j] trials go through, the next one fails, and it returns
    [False] there and then.  Each trial run takes one draw and makes one
    call. *)
Theorem safe_returns_a_boolean rnd c type_in type_out w :
  signature (as_function c) = Return (type_in, type_out) ->
  is_type type_in TInt = true \/ is_type type_in TFloat = true ->
  (forall j x, (j < Z.to_nat 10000)%nat ->
     generated rnd type_in (cursor w + j) = Some x -> returns_on c x = true) ->
  (exists s',
      passes rnd (as_function c) type_in type_out (Z.to_nat 10000)
        (None, w) s' /\
      Nonterminating.safe rnd c w = Some (Return true, snd s') /\
      cursor (snd s') = (cursor w + Z.to_nat 10000)%nat /\
      List.length (calls (snd s'))
      = (List.length (calls w) + Z.to_nat 10000)%nat) \/
  (exists j s v w', (j < Z.to_nat 10000)%nat /\
      passes rnd (as_function c) type_in type_out j (None, w) s /\
      trial rnd (as_function c) type_in type_out (fst s) (snd s)
      = (Return (false, v), w') /\
      Nonterminating.safe rnd c w = Some (Return false, w') /\
      cursor w' = (cursor w + S j)%nat /\
      List.length (calls w') = (List.length (calls w) + S j)%nat).
Proof.
  intros Hs Hin Hret.
  assert (Nonterminating.safe rnd c w = Some (safe rnd (as_function c) w))
    as ->.
  { unfold Nonterminating.safe, Nonterminating.safe_trials, safe.
    rewrite (safe_trials_eq _ _ _ _ _ _ Hs).
    unfold Nonterminating.bindM at 1, Nonterminating.returning at 1, lift.
    rewrite Hs. cbn [fst snd].
    apply nonterminating_trials; assumption. }
  destruct (safe_run_shape rnd (as_function c) type_in type_out w Hs Hin)
    as [(s' & Hp & Hr & Hc & Hl)|(j & s & v & w' & Hj & Hp & Ht & Hr & Hc & Hl)].
  - left. exists s'. rewrite Hr. auto.
  - right. exists j, s, v, w'. rewrite Hr. repeat split; assumption.
Qed.

Lemma safe_returns_a_boolean_witness :
  exists b w',
    Nonterminating.safe (fun i => N.of_nat i)
      {| as_function := defined triple; returns_on := fun _ => true |} world0
    = Some (Return b, w').
Proof.
  destruct (safe_returns_a_boolean (fun i => N.of_nat i)
              {| as_function := defined triple; returns_on := fun _ => true |}
              (VType TInt) (VType TInt) world0 eq_refl (or_introl eq_refl))
    as [(s' & _ & H & _)|(j & s & v & w' & _ & _ & _ & H & _)].
  - intros j x _ _. reflexivity.
  - exists true, (snd s'). exact H.
  - exists false, w'. exact H.
Defined.

(** *** Extraction *)

Lemma getitem_key a k : In k (keys a) -> getitem a k = Return (value_at a k).
Proof.
  unfold value_at. induction a as [|[k' v] a IH]; cbn; [tauto|].
  intros [->|Hin].
  - rewrite String.eqb_refl. reflexivity.
  - destruct (String.eqb k' k); [reflexivity | auto].
Qed.

Lemma comprehension_total {A B} (p : A -> bool) (g : A -> outcome B)
    (h : A -> B) ks :
  (forall k, In k ks -> g k = Return (h k)) ->
  comprehension p g ks = Return (map h (filter p ks)).
Proof.
  induction ks as [|k ks IH]; intro H; cbn; [reflexivity|].
  rewrite IH by (intros; apply H; right; assumption).
  destruct (p k); [|reflexivity].
  rewrite (H k) by (left; reflexivity). reflexivity.
Qed.

Lemma getitem_absent a k : ~ In k (keys a) -> fails (getitem a k).
Proof.
  induction a as [|[k' v] a IH]; cbn; intro H.
  - eexists. reflexivity.
  - destruct (String.eqb_spec k' k) as [->|Hne]; [tauto|].
    apply IH. tauto.
Qed.

Lemma getitem_last a k v :
  ~ In k (keys a) -> getitem (a ++ [(k, v)]) k = Return v.
Proof.
  induction a as [|[k' v'] a IH]; cbn; intro H.
  - rewrite String.eqb_refl. reflexivity.
  - destruct (String.eqb_spec k' k) as [->|Hne]; [tauto|].
    apply IH. tauto.
Qed.

Lemma eval_annotations_shape ns args :
  Forall (fun a => arg_name a <> "return") args ->
  forall d, eval_annotations ns args = Return d ->
  ~ In "return" (keys d) /\
  match first_annotation args with
  | None => d = []
  | Some e => exists k v rest,
      d = (k, v) :: rest /\ k <> "return" /\ eval ns e = Return v
  end.
Proof.
  induction 1 as [|a args Ha Hargs IH]; intros d Hd; cbn in *.
  - injection Hd as <-. split; [tauto | reflexivity].
  - destruct (annotation a) as [e|]; [|apply IH; exact Hd].
    destruct (eval ns e) as [v|x]; [|discriminate]. cbn in Hd.
    destruct (eval_annotations ns args) as [d0|x]; [|discriminate].
    cbn in Hd. injection Hd as <-.
    destruct (IH d0 eq_refl) as [Hk _]. split.
    + cbn. intros [H|H]; [congruence | tauto].
    + exists (arg_name a), v, d0. repeat split. exact Ha.
Qed.

Lemma signature_of_annotations f :
  signature f
  = (type_in <- first (map (value_at (fn_annotations f))
                         (filter (fun k => negb (String.eqb k "return"))
                            (keys (fn_annotations f)))) ;;
     type_out <- getitem (fn_annotations f) "return" ;;
     Return (type_in, type_out)).
Proof.
  unfold signature.
  rewrite (comprehension_total _ _ (value_at (fn_annotations f)))
    by (intros k Hk; apply getitem_key; exact Hk).
  reflexivity.
Qed.

Lemma attribute_signature_of_def ns name args returns body f :
  def ns name args returns body = Return f ->
  Forall (fun a => arg_name a <> "return") args ->
  forall type_in type_out,
    signature f = Return (type_in, type_out) <->
    exists e_in e_out,
      first_annotation args = Some e_in /\ returns = Some e_out /\
      eval ns e_in = Return type_in /\ eval ns e_out = Return type_out.
Proof.
  intros Hdef Hnames type_in type_out. unfold def in Hdef.
  destruct (eval_annotations ns args) as [d|x] eqn:Hd; [|discriminate].
  destruct (eval_annotations_shape ns args Hnames d Hd) as [Hret Hfirst].
  cbn [bind] in Hdef. rewrite signature_of_annotations.
  destruct returns as [e_out|].
  - destruct (eval ns e_out) as [v_out|x] eqn:He; [|discriminate].
    cbn [bind] in Hdef. injection Hdef as <-. cbn [fn_annotations].
    rewrite (getitem_last d "return" v_out Hret).
    destruct (first_annotation args) as [e_in|].
    + destruct Hfirst as (k & v & rest & -> & Hk & Hv).
      cbn [app keys map fst filter].
      apply String.eqb_neq in Hk. rewrite Hk. cbn [negb map first bind].
      unfold value_at at 1. cbn [getitem]. rewrite String.eqb_refl.
      split.
      * intro H. injection H as <- <-. exists e_in, e_out. auto.
      * intros (e1 & e2 & H1 & H2 & H3 & H4).
        injection H1 as <-. injection H2 as <-. congruence.
    + subst d. cbn. split; [discriminate|].
      intros (e1 & e2 & H1 & _). discriminate.
  - cbn [bind] in Hdef. injection Hdef as <-. cbn [fn_annotations].
    destruct (getitem_absent d "return" Hret) as (x & ->).
    split.
    + destruct (first _); discriminate.
    + intros (e1 & e2 & _ & H & _). discriminate.
Qed.

Lemma source_signature_of_def ns name args returns body f :
  def ns name args returns body = Return f ->
  forall i o,
    SourceBased.signature f = Return (i, o) <->
    exists a rest,
      args = a :: rest /\ annotation a = Some (Name i) /\
      returns = Some (Name o).
Proof.
  intros Hdef i o. unfold def in Hdef.
  destruct (eval_annotations ns args) as [d|x]; [|discriminate].
  cbn [bind] in Hdef.
  assert (fn_source f = Return [FunctionDef name args returns]) as Hsrc.
  { destruct returns as [e|]; [destruct (eval ns e); [|discriminate]|];
      cbn [bind] in Hdef; injection Hdef as <-; reflexivity. }
  unfold SourceBased.signature. rewrite Hsrc. cbn.
  destruct args as [|a rest]; cbn.
  - split; [discriminate|]. intros (a & rest & H & _). discriminate.
  - destruct (annotation a) as [[i'|c]|] eqn:Ha; cbn;
      try (split; [discriminate|];
           intros (a' & rest' & H1 & H2 & _);
           injection H1 as <- <-; congruence).
    destruct returns as [[o'|c]|]; cbn;
      try (split; [discriminate|];
           intros (a' & rest' & _ & _ & H3); discriminate).
    split.
    + intro H. injection H as <- <-. exists a, rest. auto.
    + intros (a' & rest' & H1 & H2 & H3).
      injection H1 as <- <-. congruence.
Qed.








(** *** Rounding to binary64

    The rounding of an exact positive mantissa never goes past an integer
    bound [B < 2 ^ 53], which is itself a binary64 number. *)

Lemma fexp_eq x : -1074 <= x - 53 -> fexp prec emax x = x - 53.
Proof. unfold fexp, emin, prec, emax. lia. Qed.

Lemma digits2_size m : digits2_pos m = Pos.size m.
Proof. induction m; cbn; congruence. Qed.

Lemma dig_bounds m : 2 ^ (dig m - 1) <= Zpos m < 2 ^ dig m.
Proof.
  unfold dig. rewrite digits2_size.
  pose proof (Pos.size_gt m) as Hgt. pose proof (Pos.size_le m) as Hle.
  apply Pos2Z.pos_lt_pos in Hgt. apply Pos2Z.pos_le_pos in Hle.
  rewrite Pos2Z.inj_pow in Hgt, Hle.
  change (Z.pos m~0) with (2 * Z.pos m) in Hle.
  replace (Z.pos (Pos.size m)) with (Z.pos (Pos.size m) - 1 + 1) in Hle by lia.
  rewrite Z.pow_add_r in Hle by lia. change (2 ^ 1) with 2 in Hle.
  split; [lia | exact Hgt].
Qed.

Lemma shr_1_inv M j mrs :
  0 <= j -> shr_inv M j mrs -> shr_inv M (j + 1) (shr_1 mrs).
Proof.
  intros Hj (rem & HM & Hrem & Hm & Hflag). unfold shr_inv.
  rewrite Z.pow_add_r by lia. change (2 ^ 1) with 2.
  destruct mrs as [m r s]. cbn [shr_m shr_r shr_s] in *.
  destruct m as [|[p|p|]|p]; cbn [shr_1 shr_m shr_r shr_s]; try lia.
  - exists rem. rewrite orb_false_l. repeat split; try lia; apply Hflag.
  - exists (2 ^ j + rem). rewrite orb_true_l.
    repeat split; try lia; intro; try discriminate; lia.
  - exists rem. rewrite orb_false_l. repeat split; try lia; apply Hflag.
  - exists (2 ^ j + rem). rewrite orb_true_l.
    repeat split; try lia; intro; try discriminate; lia.
Qed.

Lemma iter_pos_shr_inv M p :
  forall j mrs, 0 <= j -> shr_inv M j mrs ->
  shr_inv M (j + Zpos p) (iter_pos shr_1 p mrs).
Proof.
  induction p as [p IH|p IH|]; intros j mrs Hj H; cbn [iter_pos].
  - replace (j + Z.pos p~1) with (j + 1 + Z.pos p + Z.pos p) by lia.
    apply IH; [lia|]. apply IH; [lia|]. apply shr_1_inv; assumption.
  - replace (j + Z.pos p~0) with (j + Z.pos p + Z.pos p) by lia.
    apply IH; [lia|]. apply IH; assumption.
  - apply shr_1_inv; assumption.
Qed.

Lemma round_nearest_even_cases mrs :
  let m1 := round_nearest_even (shr_m mrs) (loc_of_shr_record mrs) in
  m1 = shr_m mrs \/
  (m1 = shr_m mrs + 1 /\ orb (shr_r mrs) (shr_s mrs) = true).
Proof.
  destruct mrs as [m [|] [|]]; cbn; auto.
  destruct (Z.even m); auto.
Qed.

Lemma dig_unique m d : 2 ^ (d - 1) <= Zpos m < 2 ^ d -> dig m = d.
Proof.
  intros [Hlo Hhi]. pose proof (dig_bounds m) as [Hlo' Hhi'].
  assert (0 < dig m) by (unfold dig; lia).
  assert (0 < d).
  { destruct (Z_lt_le_dec 0 d); [assumption|].
    destruct (Z.eq_dec d 0) as [->|]; [cbn in Hhi; lia|].
    rewrite Z.pow_neg_r in Hhi by lia. lia. }
  destruct (Z_lt_le_dec d (dig m)).
  - assert (2 ^ d <= 2 ^ (dig m - 1)) by (apply Z.pow_le_mono_r; lia). lia.
  - destruct (Z_lt_le_dec (dig m) d); [|lia].
    assert (2 ^ dig m <= 2 ^ (d - 1)) by (apply Z.pow_le_mono_r; lia). lia.
Qed.

Lemma binary_round_aux_bound s M E B :
  E <= 0 -> -1074 <= dig M + E - 53 -> 0 < B < 2 ^ 53 ->
  Zpos M <= B * 2 ^ (- E) ->
  exists m e,
    binary_round_aux prec emax s (Zpos M) E loc_Exact = S754_finite s m e /\
    e <= 0 /\ Zpos m <= B * 2 ^ (- e) /\ Z.min E (dig M + E - 53) <= e.
Proof.
  intros HE Hsub HB Hle.
  pose proof (dig_bounds M) as [Hlo Hhi].
  assert (0 < dig M) as Hd by (unfold dig; lia).
  unfold binary_round_aux, shr_fexp.
  change (Zdigits2 (Zpos M)) with (dig M).
  rewrite fexp_eq by assumption.
  destruct (Z_lt_le_dec 53 (dig M)) as [Hbig|Hsmall].
  - (* more than 53 digits: the mantissa is shifted right and rounded *)
    set (n := dig M - 53) in *.
    replace (dig M + E - 53 - E) with n by (unfold n; lia).
    assert (0 < n) as Hn by (unfold n; lia).
    destruct n as [|pn|pn] eqn:En; try lia.
    cbn [shr shr_record_of_loc].
    assert (shr_inv (Zpos M) 0 (Build_shr_record (Zpos M) false false)) as H0.
    { exists 0. cbn. repeat split; lia. }
    apply (iter_pos_shr_inv _ pn) in H0; [|lia].
    rewrite Z.add_0_l in H0.
    set (mrs := iter_pos shr_1 pn _) in *.
    destruct H0 as (rem & HM & Hrem & Hq & Hflag).
    set (q := shr_m mrs) in *.
    set (P := 2 ^ Z.pos pn) in *.
    assert (0 < P) as HP by (apply Z.pow_pos_nonneg; lia).
    (* the exponent after the shift *)
    set (e1 := E + Z.pos pn).
    assert (e1 = dig M + E - 53) as He1 by (unfold e1; lia).
    assert (2 ^ dig M = 2 ^ 53 * P) as HD.
    { unfold P. rewrite <- Z.pow_add_r by lia. f_equal. lia. }
    assert (2 ^ (dig M - 1) = 2 ^ 52 * P) as HD1.
    { unfold P. rewrite <- Z.pow_add_r by lia. f_equal. lia. }
    assert (2 ^ 52 <= q < 2 ^ 53) as Hqr by nia.
    assert (e1 <= 0) as He1neg.
    { destruct (Z_lt_le_dec 0 e1); [|assumption]. exfalso.
      assert (2 ^ (- E + 1) <= P).
      { unfold P. apply Z.pow_le_mono_r; lia. }
      rewrite Z.pow_add_r in * by lia. change (2 ^ 1) with 2 in *.
      assert (0 < 2 ^ (- E)) by (apply Z.pow_pos_nonneg; lia).
      nia. }
    assert (2 ^ (- E) = 2 ^ (- e1) * P) as HpE.
    { unfold P. rewrite <- Z.pow_add_r by lia. f_equal. lia. }
    assert (0 < 2 ^ (- e1)) as Hpe1 by (apply Z.pow_pos_nonneg; lia).
    set (m1 := round_nearest_even q (loc_of_shr_record mrs)).
    assert (2 ^ 52 <= m1 <= 2 ^ 53 /\ m1 <= B * 2 ^ (- e1)) as [Hm1 Hm1B].
    { destruct (round_nearest_even_cases mrs) as [H|[H Hf]];
        fold q in H; fold m1 in H; rewrite H.
      - split; [lia|]. nia.
      - assert (rem <> 0).
        { intro Hz. apply Hflag in Hz. congruence. }
        split; [lia|]. nia. }
    destruct (Z.eq_dec m1 (2 ^ 53)) as [Hc|Hc].
    + (* the rounding carried into a 54th digit *)
      rewrite Hc. change (Zdigits2 (2 ^ 53)) with 54.
      rewrite fexp_eq by lia.
      replace (54 + e1 - 53 - e1) with 1 by lia.
      cbn [shr shr_record_of_loc iter_pos shr_1 Z.pow Z.pow_pos Pos.iter Z.mul Pos.mul shr_m].
      assert (e1 + 1 <= 0) as He.
      { destruct (Z.eq_dec e1 0) as [Hz|]; [|lia].
        rewrite Hz in Hm1B. cbn in Hm1B. lia. }
      replace (Z.leb (e1 + 1) (emax - prec)) with true
        by (symmetry; apply Z.leb_le; unfold emax, prec; lia).
      do 2 eexists. split; [reflexivity|].
      split; [exact He|]. split; [|lia].
      assert (2 ^ (- e1) = 2 ^ (- (e1 + 1)) * 2) as Hs.
      { replace (- e1) with (- (e1 + 1) + 1) by lia.
        rewrite Z.pow_add_r by lia. reflexivity. }
      rewrite Hc in Hm1B. change (2 ^ 53) with (2 ^ 52 * 2) in Hm1B. lia.
    + destruct m1 as [|pm|pm] eqn:Em1; try lia.
      assert (dig pm = 53) as Hdm by (apply dig_unique; lia).
      change (Zdigits2 (Zpos pm)) with (dig pm). rewrite Hdm.
      rewrite fexp_eq by lia.
      replace (53 + e1 - 53 - e1) with 0 by lia.
      cbn [shr shr_record_of_loc shr_m].
      replace (Z.leb e1 (emax - prec)) with true
        by (symmetry; apply Z.leb_le; unfold emax, prec; lia).
      do 2 eexists. split; [reflexivity|]. repeat split; lia.
  - (* at most 53 digits: nothing to round *)
    assert (shr {| shr_m := Zpos M; shr_r := false; shr_s := false |} E
              (dig M + E - 53 - E)
            = ({| shr_m := Zpos M; shr_r := false; shr_s := false |}, E)) as Hs.
    { unfold shr. destruct (dig M + E - 53 - E) eqn:Hn; try reflexivity. lia. }
    cbn [shr_record_of_loc]. rewrite Hs.
    cbn [shr_m loc_of_shr_record round_nearest_even].
    change (Zdigits2 (Zpos M)) with (dig M).
    rewrite fexp_eq by assumption. rewrite Hs. cbn [shr_m].
    replace (Z.leb E (emax - prec)) with true
      by (symmetry; apply Z.leb_le; unfold emax, prec; lia).
    do 2 eexists. split; [reflexivity|]. repeat split; lia.
Qed.

Lemma iter_xO m d : Zpos (Pos.iter xO m d) = Zpos m * 2 ^ Zpos d.
Proof.
  induction d as [|d IH] using Pos.peano_ind.
  - cbn. lia.
  - rewrite Pos.iter_succ, Pos2Z.inj_succ, Z.pow_succ_r by lia.
    rewrite Pos2Z.inj_xO, IH. lia.
Qed.

Lemma shl_align_eq mx ex ez :
  ez <= ex ->
  shl_align mx ex ez = (fst (shl_align mx ex ez), ez) /\
  Zpos (fst (shl_align mx ex ez)) = Zpos mx * 2 ^ (ex - ez).
Proof.
  intro H. unfold shl_align.
  destruct (ez - ex) as [|d|d] eqn:Hd; try lia; cbn [fst].
  - assert (ex = ez) as -> by lia. rewrite Z.sub_diag. split; [reflexivity|lia].
  - split; [reflexivity|]. rewrite iter_xO. f_equal. f_equal. lia.
Qed.

Lemma dig_shift m k : 0 <= k -> forall m', Zpos m' = Zpos m * 2 ^ k ->
  dig m' = dig m + k.
Proof.
  intros Hk m' Hm'. apply dig_unique. rewrite Hm'.
  pose proof (dig_bounds m) as [Hlo Hhi].
  assert (0 < dig m) by (unfold dig; lia).
  replace (dig m + k - 1) with (dig m - 1 + k) by lia.
  rewrite !Z.pow_add_r by lia.
  assert (0 < 2 ^ k) by (apply Z.pow_pos_nonneg; lia). nia.
Qed.

Lemma binary_round_bound s mx ex B :
  ex <= 0 -> -1074 <= dig mx + ex - 53 -> 0 < B < 2 ^ 53 ->
  Zpos mx <= B * 2 ^ (- ex) ->
  exists m e,
    binary_round prec emax s mx ex = S754_finite s m e /\
    e <= 0 /\ Zpos m <= B * 2 ^ (- e) /\ ex - 52 <= e.
Proof.
  intros Hex Hsub HB Hle. unfold binary_round.
  change (Zpos (digits2_pos mx)) with (dig mx).
  rewrite fexp_eq by assumption.
  assert (0 < dig mx) by (unfold dig; lia).
  destruct (Z_lt_le_dec (dig mx + ex - 53) ex) as [Hlt|Hge].
  - destruct (shl_align_eq mx ex (dig mx + ex - 53)) as [-> Hm]; [lia|].
    set (m' := fst _) in *.
    pose proof (dig_shift mx (ex - (dig mx + ex - 53)) ltac:(lia) m' Hm) as Hd.
    destruct (binary_round_aux_bound s m' (dig mx + ex - 53) B)
      as (m & e & Hr & He & Hb & Hmin); try lia.
    + rewrite Hm.
      replace (- (dig mx + ex - 53))
        with (- ex + (ex - (dig mx + ex - 53))) by lia.
      rewrite Z.pow_add_r by lia.
      assert (0 < 2 ^ (ex - (dig mx + ex - 53)))
        by (apply Z.pow_pos_nonneg; lia).
      nia.
    + exists m, e. repeat split; try assumption; lia.
  - assert (shl_align mx ex (dig mx + ex - 53) = (mx, ex)) as ->.
    { unfold shl_align.
      destruct (dig mx + ex - 53 - ex) eqn:Hd; try reflexivity. lia. }
    destruct (binary_round_aux_bound s mx ex B)
      as (m & e & Hr & He & Hb & Hmin); try assumption.
    exists m, e. repeat split; try assumption; lia.
Qed.

Lemma unit_float_cases r :
  unit_float r = S754_zero false \/
  exists m e, unit_float r = S754_finite false m e /\
              -105 <= e <= 0 /\ Zpos m <= 2 ^ (- e).
Proof.
  unfold unit_float.
  assert (0 <= Z.of_N r mod 2 ^ 53 < 2 ^ 53) as Hk
    by (apply Z.mod_pos_bound; lia).
  destruct (Z.of_N r mod 2 ^ 53) as [|k|k]; [left; reflexivity| |lia].
  right. cbn [binary_normalize].
  assert (0 < dig k) by (unfold dig; lia).
  destruct (binary_round_bound false k (-53) 1)
    as (m & e & Hr & He & Hb & Hmin); try lia.
  exists m, e. repeat split; try assumption; lia.
Qed.

Lemma product_cases r :
  let p := SFmul prec emax float_width (unit_float r) in
  p = S754_zero false \/
  exists m e, p = S754_finite false m e /\
              -193 <= e <= 0 /\ Zpos m <= 131071 * 2 ^ (- e).
Proof.
  destruct (unit_float_cases r) as [->|(mu & eu & -> & Heu & Hmu)];
    [left; reflexivity|].
  right. unfold float_width. cbn [SFmul xorb].
  assert (0 < dig (9007130535264256 * mu)) by (unfold dig; lia).
  destruct (binary_round_aux_bound false (9007130535264256 * mu)
              (-36 + eu) 131071)
    as (m & e & Hr & He & Hb & Hmin); try lia.
  - rewrite Pos2Z.inj_mul.
    replace (- (-36 + eu)) with (36 + - eu) by lia.
    rewrite Z.pow_add_r by lia.
    change (Z.pos 9007130535264256) with (131071 * 2 ^ 36). nia.
  - exists m, e. repeat split; try assumption; lia.
Qed.

Lemma within_finite lo hi (s : bool) m e :
  e <= 0 ->
  lo * 2 ^ (- e) <= (if s then Zneg m else Zpos m) <= hi * 2 ^ (- e) ->
  within lo hi (S754_finite s m e).
Proof.
  intros He Hb. unfold within, py_le. cbn [as_number compare_number].
  unfold compare_float_Z. cbn [option_map].
  set (a := if s then Z.neg m else Z.pos m) in *.
  destruct e as [|p|p]; try lia.
  - rewrite Z.shiftl_0_r. change (2 ^ (- 0)) with 1 in Hb.
    destruct (Z.compare_spec a lo), (Z.compare_spec a hi);
      cbn; try (split; reflexivity); lia.
  - rewrite !Z.shiftl_mul_pow2 by lia.
    change (- Z.neg p) with (Z.pos p) in Hb.
    destruct (Z.compare_spec a (lo * 2 ^ Z.pos p)),
             (Z.compare_spec a (hi * 2 ^ Z.pos p));
      cbn; try (split; reflexivity); lia.
Qed.

Lemma float_of_draw_within r :
  within (- 2 ^ 16) (2 ^ 16 - 1) (float_of_draw r).
Proof.
  unfold float_of_draw.
  destruct (product_cases r) as [->|(mp & ep & -> & Hep & Hmp)].
  - split; reflexivity.
  - unfold float_lo. cbn [SFadd cond_Zopp].
    set (ez := Z.min (-36) ep).
    destruct (shl_align_eq 4503599627370496 (-36) ez) as [_ Ha];
      [unfold ez; lia|].
    destruct (shl_align_eq mp ep ez) as [_ Hp]; [unfold ez; lia|].
    rewrite Ha, Hp.
    change (Z.pos 4503599627370496) with (2 ^ 52).
    assert (2 ^ 52 * 2 ^ (-36 - ez) = 65536 * 2 ^ (- ez)) as ->.
    { change (2 ^ 52) with (65536 * 2 ^ 36). rewrite <- Z.mul_assoc.
      rewrite <- Z.pow_add_r by (unfold ez; lia). do 2 f_equal. lia. }
    assert (Z.pos mp * 2 ^ (ep - ez) <= 131071 * 2 ^ (- ez)) as Hpb.
    { replace (- ez) with (- ep + (ep - ez)) by lia.
      rewrite Z.pow_add_r by (unfold ez; lia).
      assert (0 < 2 ^ (ep - ez))
        by (apply Z.pow_pos_nonneg; unfold ez; lia).
      nia. }
    assert (0 < Z.pos mp * 2 ^ (ep - ez)) as Hpp.
    { assert (0 < 2 ^ (ep - ez))
        by (apply Z.pow_pos_nonneg; unfold ez; lia).
      nia. }
    assert (0 < 2 ^ (- ez)) as Hpz
      by (apply Z.pow_pos_nonneg; unfold ez; lia).
    assert (-193 <= ez <= 0) as Hez by (unfold ez; lia).
    set (P := 2 ^ (- ez)) in *. set (b := Z.pos mp * 2 ^ (ep - ez)) in *.
    destruct (- (65536 * P) + b) as [|t|t] eqn:HS; cbn [binary_normalize].
    + split; reflexivity.
    + assert (0 < dig t) by (unfold dig; lia).
      destruct (binary_round_bound false t ez 65535)
        as (m & e & -> & He & Hb & Hmin); try lia.
      apply within_finite; [assumption|].
      assert (0 < 2 ^ (- e)) by (apply Z.pow_pos_nonneg; lia).
      cbn [negb]. nia.
    + assert (0 < dig t) by (unfold dig; lia).
      destruct (binary_round_bound true t ez 65536)
        as (m & e & -> & He & Hb & Hmin); try lia.
      apply within_finite; [assumption|].
      assert (0 < 2 ^ (- e)) by (apply Z.pow_pos_nonneg; lia).
      change (Z.neg m) with (- Z.pos m). nia.
Qed.

Lemma int_of_draw_range r : - 2 ^ 16 <= int_of_draw r <= 2 ^ 16 - 1.
Proof.
  unfold int_of_draw.
  pose proof (Z.mod_pos_bound (Z.of_N r) (2 ^ 17) ltac:(lia)). lia.
Qed.

(** C8: the generators of [safe] are bounded.  For the input type [int]
    the value is an integer between [-2**16] and [2**16 - 1]; for [float]
    it is a float [x] for which [-2**16 <= x] and [x <= 2**16 - 1] hold;
    for any other input type nothing is generated: no draw is taken and
    [value_in] is left as it was. *)
Theorem generators_are_bounded rnd type_in value_in w :
  (is_type type_in TInt = true ->
   exists z,
     generate rnd type_in value_in w = (Return (Some (VInt z)), drawn w) /\
     - 2 ^ 16 <= z <= 2 ^ 16 - 1) /\
  (is_type type_in TFloat = true ->
   exists x,
     generate rnd type_in value_in w = (Return (Some (VFloat x)), drawn w) /\
     within (- 2 ^ 16) (2 ^ 16 - 1) x) /\
  (is_type type_in TInt = false -> is_type type_in TFloat = false ->
   generate rnd type_in value_in w = (Return value_in, w)).
Proof.
  split; [|split].
  - intro Hi. apply is_type_eq in Hi. subst type_in.
    rewrite generate_int. eexists. split; [reflexivity|].
    apply int_of_draw_range.
  - intro Hf. apply is_type_eq in Hf. subst type_in.
    rewrite generate_float. eexists. split; [reflexivity|].
    apply float_of_draw_within.
  - apply generate_other.
Qed.

(** ** Further properties of the checker and the extractors *)

Lemma trials_true_iff rnd f type_in type_out n :
  is_type type_in TInt = true \/ is_type type_in TFloat = true ->
  forall value_in w,
    fst (trials rnd n f type_in type_out value_in w) = Return true <->
    (forall j x, (j < n)%nat ->
       generated rnd type_in (cursor w + j) = Some x ->
       conforms f type_out x = true).
Proof.
  intro Hin. induction n as [|n IH]; intros value_in w.
  - split; [intros _ j x Hj; lia | reflexivity].
  - rewrite trials_S.
    destruct (generate_generated rnd type_in value_in w Hin) as (x0 & Hx0 & Hg).
    rewrite (trial_bound _ _ _ _ _ _ _ _ Hg).
    destruct (conforms f type_out x0) eqn:Hc.
    + rewrite IH. cbn [called drawn cursor]. split.
      * intros H j x Hj Hx. destruct j as [|j].
        -- rewrite Nat.add_0_r in Hx. congruence.
        -- apply (H j); [lia|]. rewrite Nat.add_succ_r in Hx. exact Hx.
      * intros H j x Hj Hx. apply (H (S j)); [lia|].
        rewrite Nat.add_succ_r. exact Hx.
    + split; [discriminate|].
      intro H. assert (conforms f type_out x0 = true); [|congruence].
      apply (H O); [lia|]. rewrite Nat.add_0_r. exact Hx0.
Qed.

(** X1: with an input type of [int] or [float], [safe] returns [True]
    exactly when, for each of the 10000 inputs it generates from the draws
    that follow the cursor, the call returns an instance of the declared
    output type. *)
Theorem safe_true_iff rnd f type_in type_out w :
  signature f = Return (type_in, type_out) ->
  is_type type_in TInt = true \/ is_type type_in TFloat = true ->
  (fst (safe rnd f w) = Return true <->
   forall j x, (j < Z.to_nat 10000)%nat ->
     generated rnd type_in (cursor w + j) = Some x ->
     exists r, fn_call f x = Return r /\ isinstance r type_out = Return true).
Proof.
  intros Hs Hin. unfold safe. rewrite (safe_trials_eq _ _ _ _ _ _ Hs).
  rewrite (trials_true_iff _ _ _ _ _ Hin).
  split; intros H j x Hj Hx; specialize (H j x Hj Hx).
  - unfold conforms in H. destruct (fn_call f x) as [r|e]; [|discriminate].
    exists r. split; [reflexivity|].
    destruct (isinstance r type_out) as [[|]|e]; congruence.
  - destruct H as (r & Hc & Hi). exact (conforms_intro _ _ _ _ Hc Hi).
Qed.

Lemma safe_true_iff_witness :
  fst (safe (fun i => N.of_nat i) (defined double) world0) = Return true.
Proof.
  apply (safe_true_iff (fun i => N.of_nat i) (defined double)
           (VType TInt) (VType TInt) world0 eq_refl (or_introl eq_refl)).
  intros j x _ Hx. rewrite generated_int in Hx. injection Hx as <-.
  eexists. split; reflexivity.
Defined.

(** *** [floor] *)

Lemma shiftl_pos m e : 0 <= e -> 0 < Z.shiftl (Zpos m) e.
Proof.
  intro He. rewrite Z.shiftl_mul_pow2 by assumption.
  assert (0 < 2 ^ e) by (apply Z.pow_pos_nonneg; lia). nia.
Qed.

Lemma positive_finite_gt_0 m e :
  py_gt (VFloat (S754_finite false m e)) (VInt 0) = Return (VBool true).
Proof.
  unfold py_gt. cbn [as_number compare_number compare_float_Z].
  destruct e as [|p|p].
  - reflexivity.
  - pose proof (shiftl_pos m (Zpos p) ltac:(lia)) as H.
    apply Z.gt_lt_iff in H. unfold Z.gt in H. rewrite H. reflexivity.
  - rewrite Z.shiftl_0_l. reflexivity.
Qed.

Lemma negative_finite_gt_0 m e :
  py_gt (VFloat (S754_finite true m e)) (VInt 0) = Return (VBool false).
Proof.
  unfold py_gt. cbn [as_number compare_number compare_float_Z].
  destruct e as [|p|p].
  - reflexivity.
  - rewrite Z.shiftl_mul_pow2 by lia.
    assert (0 < 2 ^ Z.pos p) by (apply Z.pow_pos_nonneg; lia).
    assert (Z.neg m * 2 ^ Z.pos p < 0) as Hlt by nia.
    rewrite Hlt. reflexivity.
  - rewrite Z.shiftl_0_l. reflexivity.
Qed.

(** X2: on a positive finite float [floor] returns the integer [z] with
    [z <= x < z + 1], which is not negative; on positive infinity it raises
    [OverflowError]; a NaN is returned as it is. *)
Theorem floor_of_positive :
  (forall m e,
     let x := VFloat (S754_finite false m e) in
     exists z,
       fn_call (defined floor) x = Return (VInt z) /\ 0 <= z /\
       py_le (VInt z) x = Return (VBool true) /\
       py_gt (VInt (z + 1)) x = Return (VBool true)) /\
  fn_call (defined floor) (VFloat (S754_infinity false))
  = Raise (mkExn OverflowError "cannot convert float infinity to integer") /\
  fn_call (defined floor) (VFloat S754_nan) = Return (VFloat S754_nan).
Proof.
  split; [|split; reflexivity].
  intros m e x. subst x.
  change (fn_call (defined floor)) with floor_body. unfold floor_body.
  rewrite positive_finite_gt_0. cbn [bind truthy py_int int_of_float].
  eexists. split; [reflexivity|].
  unfold py_le, py_gt. cbn [as_number compare_number compare_float_Z option_map].
  destruct e as [|p|p].
  - rewrite Z.shiftl_0_r. split; [lia|].
    rewrite Z.compare_refl.
    assert (Z.pos m < Z.pos m + 1) as -> by lia. split; reflexivity.
  - pose proof (shiftl_pos m (Zpos p) ltac:(lia)).
    split; [lia|]. rewrite Z.compare_refl.
    assert (Z.shiftl (Z.pos m) (Z.pos p) < Z.shiftl (Z.pos m) (Z.pos p) + 1)
      as -> by lia.
    split; reflexivity.
  - rewrite Z.shiftr_div_pow2, !Z.shiftl_mul_pow2 by lia.
    assert (0 < 2 ^ Z.pos p) as HP by (apply Z.pow_pos_nonneg; lia).
    pose proof (Z.div_mod (Z.pos m) (2 ^ Z.pos p) ltac:(lia)) as Hdm.
    pose proof (Z.mod_pos_bound (Z.pos m) (2 ^ Z.pos p) HP) as Hmod.
    set (q := Z.pos m / 2 ^ Z.pos p) in *.
    assert (0 <= q) by (apply Z.div_pos; lia).
    split; [assumption|].
    assert (Z.pos m < (q + 1) * 2 ^ Z.pos p) as -> by nia.
    destruct (Z.compare_spec (Z.pos m) (q * 2 ^ Z.pos p));
      cbn; try (split; reflexivity); nia.
Qed.

Lemma floor_conforms_iff x :
  within (- 2 ^ 16) (2 ^ 16 - 1) x ->
  (conforms (defined floor) (VType TInt) (VFloat x) = true <->
   py_gt (VFloat x) (VInt 0) = Return (VBool true)).
Proof.
  intros [Hlo Hhi]. unfold conforms.
  change (fn_call (defined floor)) with floor_body.
  destruct x as [s|s| |s m e]; try (destruct s; discriminate);
    try discriminate.
  - (* a zero *) split; discriminate.
  - destruct s.
    + unfold floor_body. rewrite negative_finite_gt_0. split; discriminate.
    + unfold floor_body. rewrite positive_finite_gt_0.
      split; reflexivity.
Qed.

Lemma floor_trials_true_iff rnd n value_in w :
  fst (trials rnd n (defined floor) (VType TFloat) (VType TInt) value_in w)
  = Return true <->
  forall j, (j < n)%nat ->
    py_gt (VFloat (float_of_draw (rnd (cursor w + j)%nat))) (VInt 0)
    = Return (VBool true).
Proof.
  rewrite (trials_true_iff rnd (defined floor) (VType TFloat) (VType TInt) _
             (or_intror eq_refl)).
  split.
  - intros H j Hj. apply floor_conforms_iff; [apply float_of_draw_within|].
    apply (H j); [exact Hj | apply generated_float].
  - intros H j x Hj Hx. rewrite generated_float in Hx. injection Hx as <-.
    apply floor_conforms_iff; [apply float_of_draw_within | exact (H j Hj)].
Qed.

(** X3: [safe(floor)] is true exactly when each of the 10000 floats it
    generates is positive. *)
Theorem floor_safe_iff rnd w :
  fst (safe rnd (defined floor) w) = Return true <->
  forall j, (j < Z.to_nat 10000)%nat ->
    py_gt (VFloat (float_of_draw (rnd (cursor w + j)%nat))) (VInt 0)
    = Return (VBool true).
Proof.
  unfold safe.
  rewrite (safe_trials_eq _ _ _ (VType TFloat) (VType TInt)) by reflexivity.
  apply floor_trials_true_iff.
Qed.

(** *** Declarations that [safe] cannot check *)

Lemma conforms_non_type f type_out x :
  (forall t, type_out <> VType t) -> conforms f type_out x = false.
Proof.
  intro H. unfold conforms. destruct (fn_call f x) as [r|e]; [|reflexivity].
  destruct type_out; try reflexivity. destruct (H t eq_refl).
Qed.

(** X4: when the declared output is [None] or a number (as with
    [-> None]), the instance check itself raises [TypeError]; the handler
    takes it for a failure, and [safe] returns [False] after a single draw
    and a single call, whatever the function returns. *)
Theorem none_or_number_output_is_unsafe rnd f type_in type_out w :
  signature f = Return (type_in, type_out) ->
  is_type type_in TInt = true \/ is_type type_in TFloat = true ->
  type_out = VNone \/ as_number type_out <> None ->
  (forall r, exists e,
     isinstance r type_out = Raise e /\ exc_type e = TypeError) /\
  exists x, generated rnd type_in (cursor w) = Some x /\
            safe rnd f w = (Return false, called x (drawn w)).
Proof.
  intros Hs Hin Ht.
  assert (forall t, type_out <> VType t) as Hnt.
  { intros t ->. destruct Ht as [Ht|Ht]; [discriminate | apply Ht; reflexivity]. }
  split.
  - intro r. destruct type_out; try (eexists; split; reflexivity).
    destruct (Hnt t eq_refl).
  - destruct (generate_generated rnd type_in None w Hin) as (x & Hx & Hg).
    exists x. split; [exact Hx|].
    unfold safe. rewrite (safe_trials_eq _ _ _ _ _ _ Hs).
    change (Z.to_nat 10000) with (S (Z.to_nat 9999)).
    rewrite trials_S, (trial_bound _ _ _ _ _ _ _ _ Hg).
    rewrite (conforms_non_type _ _ _ Hnt). reflexivity.
Qed.

Lemma none_or_number_output_is_unsafe_witness :
  fst (safe (fun _ => 0%N)
         (defined (def notebook_globals "log"
                     [mk_arg "x" (Some (Name "int"))] (Some (Constant VNone))
                     (fun _ => Return VNone)))
         world0) = Return false.
Proof.
  destruct (none_or_number_output_is_unsafe (fun _ => 0%N)
              (defined (def notebook_globals "log"
                          [mk_arg "x" (Some (Name "int"))]
                          (Some (Constant VNone)) (fun _ => Return VNone)))
              (VType TInt) VNone world0 eq_refl (or_introl eq_refl)
              (or_introl eq_refl))
    as (_ & x & _ & H).
  rewrite H. reflexivity.
Defined.

Lemma getitem_absent_eq a k :
  ~ In k (keys a) -> getitem a k = Raise (mkExn KeyError k).
Proof.
  induction a as [|[k' v] a IH]; cbn; intro H; [reflexivity|].
  destruct (String.eqb_spec k' k) as [->|Hne]; [tauto|].
  apply IH. tauto.
Qed.

Lemma safe_trials_raise rnd n f w e :
  signature f = Raise e -> safe_trials rnd n f w = (Raise e, w).
Proof. intro H. unfold safe_trials, bindM, lift. rewrite H. reflexivity. Qed.

(** X5: the extraction is outside the [try]: when it fails, [safe] raises
    and does not return [False].  For a function made by [def], [safe]
    raises [IndexError] when no parameter is annotated, and
    [KeyError('return')] when a parameter is annotated and the return is
    not; in both cases nothing is drawn and the function is not called. *)
Theorem safe_raises_without_annotations rnd ns name args returns body f w :
  def ns name args returns body = Return f ->
  Forall (fun a => arg_name a <> "return") args ->
  (first_annotation args = None ->
   safe rnd f w = (Raise (mkExn IndexError "list index out of range"), w)) /\
  (first_annotation args <> None -> returns = None ->
   safe rnd f w = (Raise (mkExn KeyError "return"), w)).
Proof.
  intros Hdef Hnames. unfold def in Hdef.
  destruct (eval_annotations ns args) as [d|x] eqn:Hd; [|discriminate].
  destruct (eval_annotations_shape ns args Hnames d Hd) as [Hret Hfirst].
  cbn [bind] in Hdef. split.
  - intro Hnone. rewrite Hnone in Hfirst. subst d.
    apply safe_trials_raise. rewrite signature_of_annotations.
    destruct returns as [e_out|].
    + destruct (eval ns e_out) as [v|x]; [|discriminate].
      cbn [bind] in Hdef. injection Hdef as <-. reflexivity.
    + injection Hdef as <-. reflexivity.
  - intros Hsome ->. injection Hdef as <-.
    apply safe_trials_raise. rewrite signature_of_annotations.
    cbn [fn_annotations].
    destruct (first_annotation args) as [e_in|]; [|congruence].
    destruct Hfirst as (k & v & rest & -> & Hk & Hv).
    rewrite (getitem_absent_eq _ _ Hret).
    cbn [keys map fst filter]. apply String.eqb_neq in Hk. rewrite Hk.
    reflexivity.
Qed.

Lemma safe_raises_without_annotations_witness :
  fst (safe (fun _ => 0%N)
         (defined (def builtins "identity" [mk_arg "x" None] None
                     (fun x => Return x)))
         world0)
  = Raise (mkExn IndexError "list index out of range").
Proof.
  destruct (safe_raises_without_annotations (fun _ => 0%N) builtins
              "identity" [mk_arg "x" None] None (fun x => Return x)
              _ world0 eq_refl) as [H _].
  - repeat constructor. discriminate.
  - exact (f_equal fst (H eq_refl)).
Defined.

Lemma eval_annotations_first ns args d :
  eval_annotations ns args = Return d ->
  forall a rest e, args = a :: rest -> annotation a = Some e ->
  exists v, eval ns e = Return v.
Proof.
  intros Hd a rest e -> Ha. cbn in Hd. rewrite Ha in Hd.
  destruct (eval ns e) as [v|x]; [eauto | discriminate].
Qed.

(** X6: for a function made by [def], when the source-based extractor
    returns the names [(i, o)], both names are bound where the function
    was defined, and the attribute-based extractor returns the pair of
    their values. *)
Theorem attribute_signature_evaluates_source ns name args returns body f i o :
  def ns name args returns body = Return f ->
  Forall (fun a => arg_name a <> "return") args ->
  SourceBased.signature f = Return (i, o) ->
  exists type_in type_out,
    lookup ns i = Return type_in /\ lookup ns o = Return type_out /\
    signature f = Return (type_in, type_out).
Proof.
  intros Hdef Hnames Hsrc.
  apply (source_signature_of_def _ _ _ _ _ _ Hdef) in Hsrc.
  destruct Hsrc as (a & rest & Hargs & Ha & Hr).
  pose proof Hdef as Hdef'. unfold def in Hdef'.
  destruct (eval_annotations ns args) as [d|x] eqn:Hd; [|discriminate].
  destruct (eval_annotations_first _ _ _ Hd a rest (Name i) Hargs Ha)
    as (type_in & Hin).
  cbn [bind] in Hdef'. rewrite Hr in Hdef'.
  destruct (eval ns (Name o)) as [type_out|x] eqn:Hout; [|discriminate].
  exists type_in, type_out. repeat split; try assumption.
  apply (attribute_signature_of_def _ _ _ _ _ _ Hdef Hnames).
  exists (Name i), (Name o). subst args. cbn. rewrite Ha. auto.
Qed.

Lemma attribute_signature_evaluates_source_witness :
  exists type_in type_out,
    lookup notebook_globals "Number" = Return type_in /\
    lookup notebook_globals "Number" = Return type_out /\
    signature (defined double) = Return (type_in, type_out).
Proof.
  apply (attribute_signature_evaluates_source notebook_globals "double"
           [mk_arg "x" (Some (Name "Number"))] (Some (Name "Number"))
           double_body (defined double) "Number" "Number" eq_refl).
  - repeat constructor. discriminate.
  - reflexivity.
Defined.

Lemma same_but_exn_refl a : same_but_exn a a.
Proof. destruct a; cbn; auto. Qed.

Lemma safe_trials_ext rnd n f g w :
  fn_annotations g = fn_annotations f ->
  (forall x, fn_call g x = fn_call f x) ->
  safe_trials rnd n g w = safe_trials rnd n f w.
Proof.
  intros Ha Hc.
  assert (signature g = signature f) as Hs
    by (unfold signature; rewrite Ha; reflexivity).
  unfold safe_trials, bindM, lift. rewrite Hs.
  destruct (signature f) as [[type_in type_out]|e]; [|reflexivity].
  apply trials_same_but_exn. intro x. rewrite Hc. apply same_but_exn_refl.
Qed.

(** X7: [f], declared with [int], and [double], declared with the alias
    [Number], return the same for every argument ([z + z] on an integer),
    have the same attribute-based signature and get the same result from
    [safe], which is [True]; only the source-based extractor tells them
    apart. *)
Theorem f_and_double :
  exists g h, Builtin.f = Return g /\ double = Return h /\
    (forall x, fn_call g x = fn_call h x) /\
    (forall z, fn_call h (VInt z) = Return (VInt (z + z))) /\
    signature g = signature h /\
    (forall rnd w, safe rnd g w = safe rnd h w /\
                   fst (safe rnd h w) = Return true) /\
    SourceBased.signature g = Return ("int", "int") /\
    SourceBased.signature h = Return ("Number", "Number").
Proof.
  do 2 eexists. split; [reflexivity|]. split; [reflexivity|].
  split; [reflexivity|]. split; [reflexivity|]. split; [reflexivity|].
  split; [|split; reflexivity].
  intros rnd w. split.
  - apply safe_trials_ext; reflexivity.
  - unfold safe.
    rewrite (safe_trials_eq _ _ _ (VType TInt) (VType TInt)) by reflexivity.
    apply trials_conform. intros value_in w0.
    rewrite generate_int. do 2 eexists. split; reflexivity.
Qed.

Lemma trials_false_stable rnd f type_in type_out k n :
  forall value_in w w',
  trials rnd n f type_in type_out value_in w = (Return false, w') ->
  trials rnd (n + k) f type_in type_out value_in w = (Return false, w').
Proof.
  induction n as [|n IH]; intros value_in w w' H.
  - discriminate.
  - cbn [Nat.add]. rewrite trials_S in *.
    destruct (trial rnd f type_in type_out value_in w) as [[[[|] v]|e] w1];
      auto.
Qed.

(** X8: more trials can only make [safe] stricter.  A run that returns
    [False] after [n] trials returns [False], in the same world, after any
    larger number; so a function that the 10000 trials of [safe] accept is
    also accepted by the 100 trials that the comment in the code speaks
    of. *)
Theorem more_trials_are_stricter rnd f w n k :
  (forall w', safe_trials rnd n f w = (Return false, w') ->
              safe_trials rnd (n + k) f w = (Return false, w')) /\
  (fst (safe_trials rnd (n + k) f w) = Return true ->
   fst (safe_trials rnd n f w) = Return true) /\
  (fst (safe rnd f w) = Return true ->
   fst (safe_trials rnd 100 f w) = Return true).
Proof.
  assert (forall n k w',
             safe_trials rnd n f w = (Return false, w') ->
             safe_trials rnd (n + k) f w = (Return false, w')) as Hfalse.
  { intros n0 k0 w'. unfold safe_trials, bindM, lift.
    destruct (signature f) as [[type_in type_out]|e]; [|discriminate].
    apply trials_false_stable. }
  assert (forall n k,
             fst (safe_trials rnd (n + k) f w) = Return true ->
             fst (safe_trials rnd n f w) = Return true) as Htrue.
  { intros n0 k0 H.
    destruct (safe_trials rnd n0 f w) as [[[|]|e] w'] eqn:Hn.
    - reflexivity.
    - rewrite (Hfalse n0 k0 w' Hn) in H. discriminate.
    - exfalso. revert Hn H. unfold safe_trials, bindM, lift.
      destruct (signature f) as [[type_in type_out]|e'].
      + cbn [fst snd]. intro Hn.
        destruct (trials_returns rnd n0 f type_in type_out None w)
          as (b & w1 & Hb).
        rewrite Hb in Hn. discriminate.
      + discriminate. }
  split; [apply Hfalse|]. split; [apply Htrue|].
  unfold safe. change (Z.to_nat 10000) with (100 + Z.to_nat 9900)%nat.
  apply Htrue.
Qed.

(** X10: [safe] only sees the function on the range of its generator.  A
    function that returns an instance of its declared output type on every
    integer from [-2**16] to [2**16 - 1] (for a declared [float] input: on
    every float between these bounds) is reported safe, whatever it does
    on other arguments. *)
Theorem safe_only_sees_the_range rnd f type_in type_out w :
  signature f = Return (type_in, type_out) ->
  (type_in = VType TInt /\
   forall z, - 2 ^ 16 <= z <= 2 ^ 16 - 1 ->
     exists r, fn_call f (VInt z) = Return r /\
               isinstance r type_out = Return true) \/
  (type_in = VType TFloat /\
   forall x, within (- 2 ^ 16) (2 ^ 16 - 1) x ->
     exists r, fn_call f (VFloat x) = Return r /\
               isinstance r type_out = Return true) ->
  fst (safe rnd f w) = Return true.
Proof.
  intros Hs H. unfold safe. rewrite (safe_trials_eq _ _ _ _ _ _ Hs).
  apply trials_conform. intros value_in w0.
  destruct H as [[-> H]|[-> H]].
  - rewrite generate_int. do 2 eexists. split; [reflexivity|].
    destruct (H _ (int_of_draw_range (rnd (cursor w0)))) as (r & Hc & Hi).
    exact (conforms_intro _ _ _ _ Hc Hi).
  - rewrite generate_float. do 2 eexists. split; [reflexivity|].
    destruct (H _ (float_of_draw_within (rnd (cursor w0)))) as (r & Hc & Hi).
    exact (conforms_intro _ _ _ _ Hc Hi).
Qed.

Lemma safe_only_sees_the_range_witness :
  let g := defined (def builtins "small" [mk_arg "x" (Some (Name "int"))]
                      (Some (Name "int"))
                      (fun x => match x with
                                | VInt z => if z <? 2 ^ 16 then Return (VInt z)
                                            else Return VNone
                                | _ => Return VNone
                                end)) in
  fn_call g (VInt (2 ^ 16)) = Return VNone /\
  isinstance VNone (VType TInt) = Return false /\
  fst (safe (fun i => N.of_nat i) g world0) = Return true.
Proof.
  intro g. split; [reflexivity|]. split; [reflexivity|].
  apply (safe_only_sees_the_range (fun i => N.of_nat i) g
           (VType TInt) (VType TInt) world0 eq_refl).
  left. split; [reflexivity|]. intros z Hz. exists (VInt z).
  split; [|reflexivity]. cbn.
  destruct (Z.ltb_spec z 65536); [reflexivity | lia].
Defined.

(** *** The calls that [safe] makes *)

Lemma trials_effect rnd f type_in type_out n :
  is_type type_in TInt = true \/ is_type type_in TFloat = true ->
  forall value_in w,
  exists k, (k <= n)%nat /\
    snd (trials rnd n f type_in type_out value_in w)
    = {| cursor := cursor w + k;
         calls := calls w ++ inputs rnd type_in (cursor w) k |} /\
    (fst (trials rnd n f type_in type_out value_in w) = Return true -> k = n).
Proof.
  intro Hin. induction n as [|n IH]; intros value_in w.
  - exists O. split; [lia|]. cbn. rewrite Nat.add_0_r, app_nil_r.
    destruct w; auto.
  - rewrite trials_S.
    destruct (generate_generated rnd type_in value_in w Hin) as (x & Hx & Hg).
    rewrite (trial_bound _ _ _ _ _ _ _ _ Hg).
    destruct (conforms f type_out x).
    + destruct (IH (Some x) (called x (drawn w))) as (k & Hk & Hw & Ht).
      exists (S k). split; [lia|]. split.
      * rewrite Hw. cbn [called drawn cursor calls inputs]. rewrite Hx.
        rewrite <- app_assoc, Nat.add_succ_r. reflexivity.
      * intro H. rewrite (Ht H). reflexivity.
    + exists 1%nat. split; [lia|]. split; [|discriminate].
      cbn [snd called drawn cursor calls inputs]. rewrite Hx.
      rewrite Nat.add_1_r. reflexivity.
Qed.

(** X11: what [safe] does to the world.  With an input type of [int] or
    [float] it runs some number [k <= 10000] of trials ([k = 10000] when
    it returns [True]); it takes exactly [k] draws, and calls the function
    exactly [k] times, once on each generated input, in the order of the
    draws and on nothing else. *)
Theorem safe_calls_generated_inputs rnd f type_in type_out w :
  signature f = Return (type_in, type_out) ->
  is_type type_in TInt = true \/ is_type type_in TFloat = true ->
  exists k, (k <= Z.to_nat 10000)%nat /\
    snd (safe rnd f w)
    = {| cursor := cursor w + k;
         calls := calls w ++ inputs rnd type_in (cursor w) k |} /\
    List.length (inputs rnd type_in (cursor w) k) = k /\
    (fst (safe rnd f w) = Return true -> k = Z.to_nat 10000).
Proof.
  intros Hs Hin. unfold safe. rewrite (safe_trials_eq _ _ _ _ _ _ Hs).
  destruct (trials_effect rnd f type_in type_out (Z.to_nat 10000) Hin None w)
    as (k & Hk & Hw & Ht).
  exists k. repeat split; try assumption.
  clear - Hin. generalize (cursor w). induction k as [|k IH]; intro i; cbn.
  - reflexivity.
  - destruct (generate_generated rnd type_in None
                {| cursor := i; calls := [] |} Hin) as (x & Hx & _).
    cbn [cursor] in Hx. rewrite Hx. cbn. rewrite IH. reflexivity.
Qed.

Lemma safe_calls_generated_inputs_witness :
  exists k, (k <= Z.to_nat 10000)%nat /\
    snd (safe (fun i => N.of_nat i) (defined triple) world0)
    = {| cursor := k;
         calls := inputs (fun i => N.of_nat i) (VType TInt) 0 k |}.
Proof.
  destruct (safe_calls_generated_inputs (fun i => N.of_nat i) (defined triple)
              (VType TInt) (VType TInt) world0 eq_refl (or_introl eq_refl))
    as (k & Hk & Hw & _).
  exists k. split; [exact Hk | exact Hw].
Defined.

(** X12: where [floor] keeps to its declared output type.  It returns
    every integer unchanged, [1] for [True] and [False] for [False], all
    instances of [int]; on a float it returns an instance of [int] exactly
    when the float is positive and finite. *)
Theorem floor_conforms :
  (forall z, fn_call (defined floor) (VInt z) = Return (VInt z) /\
             isinstance (VInt z) (VType TInt) = Return true) /\
  (forall b, fn_call (defined floor) (VBool b)
             = Return (if b then VInt 1 else VBool false) /\
             isinstance (if b then VInt 1 else VBool false) (VType TInt)
             = Return true) /\
  (forall y,
     (exists r, fn_call (defined floor) (VFloat y) = Return r /\
                isinstance r (VType TInt) = Return true) <->
     exists m e, y = S754_finite false m e).
Proof.
  change (fn_call (defined floor)) with floor_body.
  split; [|split].
  - intro z. split; [|reflexivity].
    unfold floor_body, py_gt. cbn. destruct (z ?= 0); reflexivity.
  - intros [|]; split; reflexivity.
  - intro y. destruct y as [s|s| |s m e].
    + split; [|intros (m & e & H); discriminate].
      intros (r & Hr & Hi). destruct s;
        cbn in Hr; injection Hr as <-; discriminate.
    + split; [|intros (m & e & H); discriminate].
      intros (r & Hr & Hi). destruct s;
        cbn in Hr; [injection Hr as <-|]; discriminate.
    + split; [|intros (m & e & H); discriminate].
      intros (r & Hr & Hi).
      cbn in Hr; injection Hr as <-; discriminate.
    + destruct s.
      * split; [|intros (m' & e' & H); discriminate].
        intros (r & Hr & Hi). unfold floor_body in Hr.
        rewrite negative_finite_gt_0 in Hr. cbn in Hr.
        injection Hr as <-. discriminate.
      * split; [intros _; eauto|]. intros _. unfold floor_body.
        rewrite positive_finite_gt_0. cbn [bind truthy py_int int_of_float].
        eexists. split; reflexivity.
Qed.

Lemma triple_run rnd w :
  exists w1, safe rnd (defined triple) w = (Return true, w1) /\
             cursor w1 = (cursor w + Z.to_nat 10000)%nat.
Proof.
  unfold safe.
  rewrite (safe_trials_eq _ _ _ (VType TInt) (VType TInt)) by reflexivity.
  destruct (trials_run rnd (defined triple) (VType TInt) (VType TInt)
              (Z.to_nat 10000) None w)
    as [(s' & Hp & Hr)|(j & s & v & w' & _ & _ & _ & Hr)].
  - exists (snd s'). split; [exact Hr|].
    apply (passes_counts rnd (defined triple) (VType TInt) (VType TInt)
             _ _ _ (or_introl eq_refl) Hp).
  - exfalso.
    assert (fst (trials rnd (Z.to_nat 10000) (defined triple) (VType TInt)
                   (VType TInt) None w) = Return true) as Ht.
    { apply trials_conform. intros value_in w0.
      rewrite generate_int. do 2 eexists. split; reflexivity. }
    rewrite Hr in Ht. discriminate.
Qed.

(** X13: the last cell, [(safe(triple), safe(floor))].  Its first component
    is always [True]; the check of [floor] reads the 10000 draws that
    follow the 10000 taken by the check of [triple], and the second
    component is [True] exactly when all the floats made from them are
    positive. *)
Theorem last_cell_result rnd w :
  exists b w',
    last_cell rnd w = (Return (true, b), w') /\
    (b = true <->
     forall j, (j < Z.to_nat 10000)%nat ->
       py_gt (VFloat (float_of_draw
                        (rnd (cursor w + Z.to_nat 10000 + j)%nat))) (VInt 0)
       = Return (VBool true)).
Proof.
  destruct (triple_run rnd w) as (w1 & H1 & Hc).
  destruct (trials_returns rnd (Z.to_nat 10000) (defined floor)
              (VType TFloat) (VType TInt) None w1) as (b & w2 & H2).
  assert (safe rnd (defined floor) w1 = (Return b, w2)) as H2'.
  { unfold safe.
    rewrite (safe_trials_eq _ _ _ (VType TFloat) (VType TInt))
      by reflexivity.
    exact H2. }
  exists b, w2. split.
  - unfold last_cell, bindM. rewrite H1, H2'. reflexivity.
  - rewrite <- Hc.
    rewrite <- (floor_trials_true_iff rnd (Z.to_nat 10000) None w1).
    rewrite H2. cbn [fst]. split; congruence.
Qed.

(** *** How often [floor] is caught *)

Lemma binary_round_aux_exact s M E :
  dig M <= 53 -> -1074 <= dig M + E - 53 -> E <= 971 ->
  binary_round_aux prec emax s (Zpos M) E loc_Exact = S754_finite s M E.
Proof.
  intros Hd Hsub HE.
  unfold binary_round_aux, shr_fexp.
  change (Zdigits2 (Zpos M)) with (dig M).
  rewrite fexp_eq by assumption.
  assert (shr {| shr_m := Zpos M; shr_r := false; shr_s := false |} E
            (dig M + E - 53 - E)
          = ({| shr_m := Zpos M; shr_r := false; shr_s := false |}, E)) as Hs.
  { unfold shr. destruct (dig M + E - 53 - E) eqn:Hn; try reflexivity. lia. }
  cbn [shr_record_of_loc]. rewrite Hs.
  cbn [shr_m loc_of_shr_record round_nearest_even].
  change (Zdigits2 (Zpos M)) with (dig M).
  rewrite fexp_eq by assumption. rewrite Hs. cbn [shr_m].
  replace (Z.leb E (emax - prec)) with true
    by (symmetry; apply Z.leb_le; unfold emax, prec; lia).
  reflexivity.
Qed.

Lemma unit_float_exact r :
  (Z.of_N r mod 2 ^ 53 = 0 /\ unit_float r = S754_zero false) \/
  exists m e, unit_float r = S754_finite false m e /\
              -105 <= e <= -53 /\
              Zpos m = (Z.of_N r mod 2 ^ 53) * 2 ^ (- 53 - e).
Proof.
  unfold unit_float.
  assert (0 <= Z.of_N r mod 2 ^ 53 < 2 ^ 53) as Hk
    by (apply Z.mod_pos_bound; lia).
  destruct (Z.of_N r mod 2 ^ 53) as [|k|k]; [left; auto| |lia].
  right. cbn [binary_normalize]. unfold binary_round.
  change (Zpos (digits2_pos k)) with (dig k).
  pose proof (dig_bounds k) as [Hlo Hhi].
  assert (0 < dig k) by (unfold dig; lia).
  assert (dig k <= 53) as Hd.
  { destruct (Z_lt_le_dec 53 (dig k)); [|assumption].
    assert (2 ^ 53 <= 2 ^ (dig k - 1)) by (apply Z.pow_le_mono_r; lia). lia. }
  rewrite fexp_eq by lia.
  destruct (shl_align_eq k (-53) (dig k + -53 - 53)) as [-> Hm]; [lia|].
  set (m' := fst _) in *.
  pose proof (dig_shift k (-53 - (dig k + -53 - 53)) ltac:(lia) m' Hm) as Hd'.
  rewrite binary_round_aux_exact by lia.
  exists m', (dig k + -53 - 53). split; [reflexivity|]. split; [lia|].
  rewrite Hm. f_equal; f_equal; lia.
Qed.

Lemma float_of_draw_not_positive r :
  Z.of_N r mod 2 ^ 53 <= 2 ^ 52 - 2 ^ 36 ->
  py_gt (VFloat (float_of_draw r)) (VInt 0) = Return (VBool false).
Proof.
  intro Hk. unfold float_of_draw.
  destruct (unit_float_exact r) as [[_ ->]|(mu & eu & -> & Heu & Hmu)];
    [reflexivity|].
  unfold float_width. cbn [SFmul xorb].
  assert (0 < dig (9007130535264256 * mu)) by (unfold dig; lia).
  destruct (binary_round_aux_bound false (9007130535264256 * mu)
              (-36 + eu) 65535)
    as (mp & ep & -> & Hep & Hmp & Hmin); try lia.
  { rewrite Pos2Z.inj_mul, Hmu.
    change (Z.pos 9007130535264256) with (131071 * 2 ^ 36).
    replace (- (-36 + eu)) with (53 + 36 + (- 53 - eu)) by lia.
    rewrite !Z.pow_add_r by lia.
    assert (0 < 2 ^ (- 53 - eu)) by (apply Z.pow_pos_nonneg; lia).
    set (P := 2 ^ (- 53 - eu)) in *. nia. }
  unfold float_lo. cbn [SFadd cond_Zopp].
  set (ez := Z.min (-36) ep).
  destruct (shl_align_eq 4503599627370496 (-36) ez) as [_ Ha];
    [unfold ez; lia|].
  destruct (shl_align_eq mp ep ez) as [_ Hp]; [unfold ez; lia|].
  rewrite Ha, Hp.
  change (Z.pos 4503599627370496) with (2 ^ 52).
  assert (2 ^ 52 * 2 ^ (-36 - ez) = 65536 * 2 ^ (- ez)) as ->.
  { change (2 ^ 52) with (65536 * 2 ^ 36). rewrite <- Z.mul_assoc.
    rewrite <- Z.pow_add_r by (unfold ez; lia). do 2 f_equal. lia. }
  assert (Z.pos mp * 2 ^ (ep - ez) <= 65535 * 2 ^ (- ez)) as Hpb.
  { replace (- ez) with (- ep + (ep - ez)) by lia.
    rewrite Z.pow_add_r by (unfold ez; lia).
    assert (0 < 2 ^ (ep - ez)) by (apply Z.pow_pos_nonneg; unfold ez; lia).
    nia. }
  assert (0 < Z.pos mp * 2 ^ (ep - ez)) as Hpp.
  { assert (0 < 2 ^ (ep - ez)) by (apply Z.pow_pos_nonneg; unfold ez; lia).
    nia. }
  assert (0 < 2 ^ (- ez)) as Hpz by (apply Z.pow_pos_nonneg; unfold ez; lia).
  assert (-193 <= ez <= 0) as Hez.
  { unfold dig in *. unfold ez. lia. }
  set (P := 2 ^ (- ez)) in *. set (b := Z.pos mp * 2 ^ (ep - ez)) in *.
  destruct (- (65536 * P) + b) as [|t|t] eqn:Ht; try lia.
  cbn [binary_normalize].
  assert (0 < dig t) by (unfold dig; lia).
  destruct (binary_round_bound true t ez 65536)
    as (m & e & -> & _); try lia.
  apply negative_finite_gt_0.
Qed.

(** X14: a draw whose low 53 bits are at most [2**52 - 2**36], which is
    close to half of all draws, makes [random.uniform] return a float that
    is not positive; if one of the 10000 draws of [safe(floor)] is such a
    draw, the result is [False]. *)
Theorem floor_fails_on_low_draws rnd w j :
  (j < Z.to_nat 10000)%nat ->
  Z.of_N (rnd (cursor w + j)%nat) mod 2 ^ 53 <= 2 ^ 52 - 2 ^ 36 ->
  generated rnd (VType TFloat) (cursor w + j)
  = Some (VFloat (float_of_draw (rnd (cursor w + j)%nat))) /\
  py_gt (VFloat (float_of_draw (rnd (cursor w + j)%nat))) (VInt 0)
  = Return (VBool false) /\
  fst (safe rnd (defined floor) w) = Return false.
Proof.
  intros Hj Hk. split; [apply generated_float|].
  pose proof (float_of_draw_not_positive _ Hk) as Hneg.
  split; [exact Hneg|]. unfold safe.
  rewrite (safe_trials_eq _ _ _ (VType TFloat) (VType TInt)) by reflexivity.
  apply (floor_trials rnd _ j); assumption.
Qed.

Lemma floor_fails_on_low_draws_witness :
  fst (safe (fun _ => (2 ^ 51)%N) (defined floor) world0) = Return false.
Proof.
  refine (proj2 (proj2 (floor_fails_on_low_draws (fun _ => (2 ^ 51)%N)
                          world0 O _ _))).
  - apply Nat.ltb_lt. reflexivity.
  - cbn. lia.
Defined.

(** *** Errors of the source-based extractor *)

(** X15: when the source of the function parses to a [def], a failure of
    the source-based extractor is an [IndexError] exactly when [args.args],
    the list of its positional-or-keyword parameters, is empty, and an
    [AttributeError] otherwise (the first of them, or the return, has no
    annotation or one that is not a name).  When the source cannot be had
    or parsed, that error is the one raised. *)
Theorem source_signature_errors :
  (forall f name args returns rest e,
     fn_source f = Return (FunctionDef name args returns :: rest) ->
     SourceBased.signature f = Raise e ->
     (args = [] /\ exc_type e = IndexError) \/
     (args <> [] /\ exc_type e = AttributeError)) /\
  (forall f e, fn_source f = Raise e -> SourceBased.signature f = Raise e).
Proof.
  split.
  - intros f name args returns rest e Hsrc Hsig.
    unfold SourceBased.signature in Hsig. rewrite Hsrc in Hsig. cbn in Hsig.
    destruct args as [|a args]; cbn in Hsig.
    + injection Hsig as <-. left. auto.
    + right. split; [discriminate|].
      destruct (annotation a) as [[i|c]|]; cbn in Hsig;
        try (injection Hsig as <-; reflexivity).
      destruct returns as [[o|c]|]; cbn in Hsig;
        try (injection Hsig as <-; reflexivity).
      discriminate.
  - intros f e H. unfold SourceBased.signature. rewrite H. reflexivity.
Qed.

Lemma source_signature_errors_witness :
  exc_type (mkExn AttributeError "'NoneType' object has no attribute 'id'")
  = AttributeError.
Proof.
  destruct (proj1 source_signature_errors
              (defined (def builtins "identity" [mk_arg "x" None] None
                          (fun x => Return x)))
              "identity" [mk_arg "x" None] None []
              (mkExn AttributeError "'NoneType' object has no attribute 'id'")
              eq_refl eq_refl) as [[H _]|[_ H]].
  - discriminate.
  - exact H.
Defined.
